(** * BioSim: the orchestration wrapper of the island simulation

    A shallow embedding of [src/biosim/simulation.py].  The class [BioSim]
    seeds Python's global [random] module, builds an island from a map string,
    populates it, and then advances it one year at a time while recording the
    island-wide totals of both species.

    The module [biosim.island] that the wrapper imports is not part of the
    sources at hand.  Its interface is the type class [IslandModule] below, and
    a model of the parts the specification describes lives in [IslandSpec]. *)

From Stdlib Require Import ZArith Ascii.
From stdpp Require Import functions gmap strings list fin_maps.

Local Open Scope Z_scope.

(** ** Python outcomes *)

(** The error kinds of the engine, section 7 of the specification. *)
Inductive EngineError := MapFormatError | PopulationError | ParameterError.

(** Exceptions that can surface from a call into the wrapper. *)
Inductive Exn :=
| AttributeError (attr : string)
| IndexError
| Engine (kind : EngineError).

Inductive outcome (A : Type) :=
| Returns (a : A)
| Raises (e : Exn).
Arguments Returns {A} a.
Arguments Raises {A} e.

Definition returned {A} (o : outcome A) : bool :=
  match o with Returns _ => true | Raises _ => false end.

(** ** State and exceptions

    A computation reads and writes a state [Σ] and either returns or raises.
    The state survives a raise: what a failing call has already mutated stays
    mutated, as in Python. *)

Definition M (Σ A : Type) : Type := Σ -> outcome A * Σ.

Definition ret {Σ A} (a : A) : M Σ A := fun σ => (Returns a, σ).

Definition raise {Σ A} (e : Exn) : M Σ A := fun σ => (Raises e, σ).

Definition bind {Σ A B} (m : M Σ A) (k : A -> M Σ B) : M Σ B :=
  fun σ =>
    match m σ with
    | (Returns a, σ') => k a σ'
    | (Raises e, σ') => (Raises e, σ')
    end.

Definition gets {Σ A} (f : Σ -> A) : M Σ A := fun σ => (Returns (f σ), σ).

Definition modify {Σ} (f : Σ -> Σ) : M Σ unit := fun σ => (Returns tt, f σ).

Declare Scope py_scope.
Delimit Scope py_scope with py.
Notation "x <- m ;; k" := (bind m (fun x => k))
  (at level 100, m at next level, right associativity) : py_scope.
Notation "m ;;; k" := (bind m (fun _ => k))
  (at level 100, right associativity) : py_scope.
Local Open Scope py_scope.

(** [for x in xs: body]. *)
Fixpoint for_each {Σ A} (xs : list A) (body : A -> M Σ unit) : M Σ unit :=
  match xs with
  | [] => ret tt
  | x :: rest => body x ;;; for_each rest body
  end.

(** [range(n)] for a Python integer [n]: empty when [n <= 0]. *)
Definition py_range (n : Z) : list Z := Z.of_nat <$> seq 0 (Z.to_nat n).

(** [l[-1]]: the last element, [IndexError] on the empty list. *)
Definition index_last {Σ} (l : list Z) : M Σ Z :=
  match last l with
  | Some x => ret x
  | None => raise IndexError
  end.

(** The receiver of a method call [x.m(...)] in the two parameter setters:
    a [str] (what the docstrings ask for) or an object of a class of
    [biosim.island] that defines the method. *)
Inductive Receiver (C : Type) :=
| StrObj (s : string)
| ClassObj (c : C).
Arguments StrObj {C} s.
Arguments ClassObj {C} c.

(** ** The island module *)

(** Modelled from the spec: the interface of [biosim.island], which is
    imported by [simulation.py] and missing from the sources.  The engine is
    sequential; its only process-wide state is the random source and the
    parameter store (sections 2 and 5), so every entry point is a function of
    the island object, the store and the state of the random source.  The
    yearly advance has no error case (section 7). *)
Class IslandModule := {
  Island : Type;
  Population : Type;
  Rng : Type;
  Store : Type;
  SpeciesClass : Type;
  LandscapeClass : Type;
  ParamDict : Type;
  (** the state of [random] right after [random.seed(seed)] *)
  seed_state : Z -> Rng;
  (** [Island(island_map=...)] *)
  Island_init : string -> Store -> Rng -> outcome Island * Rng;
  (** [island.populate_the_island(population)] *)
  populate_the_island :
    Population -> Store -> Island -> Rng -> outcome unit * Island * Rng;
  (** the six phases of one year, applied to the whole grid *)
  advance_year : Store -> Island -> Rng -> Island * Rng;
  (** [island.total_island_population]: herbivores, carnivores *)
  total_island_population : Island -> Z * Z;
  (** [island.population_in_each_cell], row-major *)
  population_in_each_cell : Island -> list (Z * Z);
  (** [cls.set_animal_parameters(params)] *)
  species_set_animal_parameters :
    SpeciesClass -> ParamDict -> Store -> outcome unit * Store;
  (** [cls.set_landscape_parameters(params)] *)
  landscape_set_landscape_parameters :
    LandscapeClass -> ParamDict -> Store -> outcome unit * Store;
}.

(** Modelled from the spec: [Island.annual_cycle], missing from the sources.
    It runs the yearly advance and "finally aggregates totals and hands them
    back to the wrapper" (section 2). *)
Definition annual_cycle `{IslandModule}
    (st : Store) (isl : Island) (r : Rng) : (Z * Z) * Island * Rng :=
  let '(isl', r') := advance_year st isl r in
  (total_island_population isl', isl', r').

(** ** The wrapper *)

Section Wrapper.
Context `{IM : IslandModule}.

(** What the wrapper asks of its collaborators, in call order. *)
Inductive Event :=
| EvSeed (seed : Z)
| EvIslandInit (island_map : string)
| EvPopulate
| EvAnnualCycle
| EvSetParameters.

#[local] Instance Event_eq_dec : EqDecision Event.
Proof. solve_decision. Defined.

(** Process-wide state: the [random] module, the parameter store, and the
    log of calls made so far. *)
Record Process := {
  random_state : Rng;
  param_store : Store;
  call_log : list Event;
}.

Definition log (ev : Event) (p : Process) : Process :=
  {| random_state := random_state p;
     param_store := param_store p;
     call_log := call_log p ++ [ev] |}.

(** [class DataFrame], as far as [animal_distribution] uses it. *)
Record DataFrame := {
  df_columns : list string;
  df_rows : list (Z * Z);
}.

Record BioSim := {
  last_year_simulated : Z;
  island_map : string;
  ini_pop : Population;
  island : Island;
  herbivore_list : list Z;
  carnivore_list : list Z;
  ymax_animals : option Z;
  cmax_animals : option (gmap string Z);
  img_base : option string;
  img_fmt : string;
}.

Definition with_island (isl : Island) (s : BioSim) : BioSim :=
  {| last_year_simulated := last_year_simulated s;
     island_map := island_map s;
     ini_pop := ini_pop s;
     island := isl;
     herbivore_list := herbivore_list s;
     carnivore_list := carnivore_list s;
     ymax_animals := ymax_animals s;
     cmax_animals := cmax_animals s;
     img_base := img_base s;
     img_fmt := img_fmt s |}.

Definition with_herbivore_list (l : list Z) (s : BioSim) : BioSim :=
  {| last_year_simulated := last_year_simulated s;
     island_map := island_map s;
     ini_pop := ini_pop s;
     island := island s;
     herbivore_list := l;
     carnivore_list := carnivore_list s;
     ymax_animals := ymax_animals s;
     cmax_animals := cmax_animals s;
     img_base := img_base s;
     img_fmt := img_fmt s |}.

Definition with_carnivore_list (l : list Z) (s : BioSim) : BioSim :=
  {| last_year_simulated := last_year_simulated s;
     island_map := island_map s;
     ini_pop := ini_pop s;
     island := island s;
     herbivore_list := herbivore_list s;
     carnivore_list := l;
     ymax_animals := ymax_animals s;
     cmax_animals := cmax_animals s;
     img_base := img_base s;
     img_fmt := img_fmt s |}.

(** *** Calls out of the wrapper *)

(** [random.seed(seed)] *)
Definition random_seed (seed : Z) : M Process unit :=
  modify (fun p =>
    log (EvSeed seed)
      {| random_state := seed_state seed;
         param_store := param_store p;
         call_log := call_log p |}).

(** [bi.Island(island_map=island_map)] *)
Definition new_Island (island_map : string) : M Process Island :=
  fun p =>
    let '(o, r) := Island_init island_map (param_store p) (random_state p) in
    (o, log (EvIslandInit island_map)
          {| random_state := r;
             param_store := param_store p;
             call_log := call_log p |}).

(** [isl.populate_the_island(population)] on an island object [isl]; the
    object is mutated in place, also when the call raises. *)
Definition call_populate (population : Population) (isl : Island)
    (p : Process) : outcome unit * Island * Process :=
  let '(o, isl', r) :=
    populate_the_island population (param_store p) isl (random_state p) in
  (o, isl', log EvPopulate
              {| random_state := r;
                 param_store := param_store p;
                 call_log := call_log p |}).

(** [isl.annual_cycle()] *)
Definition call_annual_cycle (isl : Island) (p : Process)
    : (Z * Z) * Island * Process :=
  let '(totals, isl', r) :=
    annual_cycle (param_store p) isl (random_state p) in
  (totals, isl', log EvAnnualCycle
                   {| random_state := r;
                      param_store := param_store p;
                      call_log := call_log p |}).

(** A call on [self.island] from inside a method. *)
Definition self_island_populate (population : Population)
    : M (BioSim * Process) unit :=
  fun '(self, p) =>
    let '(o, isl', p') := call_populate population (island self) p in
    (o, (with_island isl' self, p')).

Definition self_island_annual_cycle : M (BioSim * Process) (Z * Z) :=
  fun '(self, p) =>
    let '(totals, isl', p') := call_annual_cycle (island self) p in
    (Returns totals, (with_island isl' self, p')).

(** [self.herbivore_list.append(x)], [self.carnivore_list.append(x)] *)
Definition herbivore_list_append (x : Z) : M (BioSim * Process) unit :=
  modify (fun '(self, p) =>
    (with_herbivore_list (herbivore_list self ++ [x]) self, p)).

Definition carnivore_list_append (x : Z) : M (BioSim * Process) unit :=
  modify (fun '(self, p) =>
    (with_carnivore_list (carnivore_list self ++ [x]) self, p)).

(** *** [BioSim.__init__] *)
Definition BioSim_init (island_map : string) (ini_pop : Population)
    (seed : Z) (ymax_animals : option Z)
    (cmax_animals : option (gmap string Z))
    (img_base : option string) (img_fmt : string) : M Process BioSim :=
  random_seed seed ;;;
  isl <- new_Island island_map ;;
  fun p =>
    match call_populate ini_pop isl p with
    | (Raises e, _, p') => (Raises e, p')
    | (Returns _, isl', p') =>
        (Returns
           {| last_year_simulated := 0;
              island_map := island_map;
              ini_pop := ini_pop;
              island := isl';
              herbivore_list := [(total_island_population isl').1];
              carnivore_list := [(total_island_population isl').2];
              ymax_animals := ymax_animals;
              cmax_animals := cmax_animals;
              img_base := img_base;
              img_fmt := img_fmt |}, p')
    end.

(** *** [BioSim.set_animal_parameters], [BioSim.set_landscape_parameters]

    Both are [x.method(params)] on the first argument.  A [str] has no such
    attribute, so the lookup of the method raises before anything runs. *)
Definition lift_store {A} (f : Store -> outcome A * Store)
    : M (BioSim * Process) A :=
  fun '(self, p) =>
    let '(o, st) := f (param_store p) in
    (o, (self, log EvSetParameters
                 {| random_state := random_state p;
                    param_store := st;
                    call_log := call_log p |})).

Definition set_animal_parameters (species : Receiver SpeciesClass)
    (params : ParamDict) : M (BioSim * Process) unit :=
  match species with
  | StrObj _ => raise (AttributeError "set_animal_parameters")
  | ClassObj cls => lift_store (species_set_animal_parameters cls params)
  end.

Definition set_landscape_parameters (landscape : Receiver LandscapeClass)
    (params : ParamDict) : M (BioSim * Process) unit :=
  match landscape with
  | StrObj _ => raise (AttributeError "set_landscape_parameters")
  | ClassObj cls =>
      lift_store (landscape_set_landscape_parameters cls params)
  end.

(** *** [BioSim.simulate] *)
Definition simulate (num_years : Z) (vis_years img_years : option Z)
    : M (BioSim * Process) unit :=
  for_each (py_range num_years) (fun _ =>
    new_island_population <- self_island_annual_cycle ;;
    herbivore_list_append new_island_population.1 ;;;
    carnivore_list_append new_island_population.2).

(** *** [BioSim.add_population] *)
Definition add_population (population : Population)
    : M (BioSim * Process) unit :=
  self_island_populate population.

(** *** Properties *)

Definition year (self : BioSim) : Z := last_year_simulated self.

Definition num_animals : M (BioSim * Process) Z :=
  hl <- gets (fun σ => herbivore_list σ.1) ;;
  h <- index_last hl ;;
  cl <- gets (fun σ => carnivore_list σ.1) ;;
  c <- index_last cl ;;
  ret (h + c).

Definition num_animals_per_species (self : BioSim) : gmap string Z :=
  {[ "Herbivores" := (total_island_population (island self)).1;
     "Carnivore" := (total_island_population (island self)).2 ]}.

Definition animal_distribution (self : BioSim) : DataFrame :=
  {| df_columns := ["Herbivores"; "Carnivores"];
     df_rows := population_in_each_cell (island self) |}.

(** *** [BioSim.make_movie]: a docstring and no body *)
Definition make_movie : M (BioSim * Process) unit := ret tt.

(** *** Clients of the wrapper *)

(** The calls a client can make on a constructed simulation. *)
Inductive Call :=
| CallSimulate (num_years : Z) (vis_years img_years : option Z)
| CallAddPopulation (population : Population)
| CallSetAnimalParameters (species : Receiver SpeciesClass)
    (params : ParamDict)
| CallSetLandscapeParameters (landscape : Receiver LandscapeClass)
    (params : ParamDict).

Definition perform (c : Call) : M (BioSim * Process) unit :=
  match c with
  | CallSimulate n v i => simulate n v i
  | CallAddPopulation population => add_population population
  | CallSetAnimalParameters species params =>
      set_animal_parameters species params
  | CallSetLandscapeParameters landscape params =>
      set_landscape_parameters landscape params
  end.

(** A client that makes the calls one after the other and carries on after a
    call that raised. *)
Fixpoint run_calls (cs : list Call) (σ : BioSim * Process)
    : BioSim * Process :=
  match cs with
  | [] => σ
  | c :: rest => run_calls rest (perform c σ).2
  end.

Definition histories (self : BioSim) : list Z * list Z :=
  (herbivore_list self, carnivore_list self).

(** [sim = BioSim(...); sim.simulate(...)], then read both history lists. *)
Definition run_simulation (island_map : string) (ini_pop : Population)
    (seed : Z) (ymax_animals : option Z)
    (cmax_animals : option (gmap string Z))
    (img_base : option string) (img_fmt : string)
    (num_years : Z) (vis_years img_years : option Z)
    (p : Process) : outcome (list Z * list Z) :=
  match BioSim_init island_map ini_pop seed ymax_animals cmax_animals
          img_base img_fmt p with
  | (Raises e, _) => Raises e
  | (Returns sim, p') =>
      match simulate num_years vis_years img_years (sim, p') with
      | (Raises e, _) => Raises e
      | (Returns _, σ) => Returns (histories σ.1)
      end
  end.

(** *** The island over the years, without the wrapper *)

(** The island and the random source [k] yearly advances later. *)
Fixpoint years_later (st : Store) (k : nat) (isl : Island) (r : Rng)
    : Island * Rng :=
  match k with
  | O => (isl, r)
  | S k' =>
      let '(isl', r') := advance_year st isl r in
      years_later st k' isl' r'
  end.

(** The island-wide totals after each of the next [k] years. *)
Fixpoint yearly_totals (st : Store) (k : nat) (isl : Island) (r : Rng)
    : list (Z * Z) :=
  match k with
  | O => []
  | S k' =>
      let '(isl', r') := advance_year st isl r in
      total_island_population isl' :: yearly_totals st k' isl' r'
  end.

(** A stretch of the call log without a seeding of the random source. *)
Definition unseeded (evs : list Event) : Prop := ∀ seed, EvSeed seed ∉ evs.

(** One round of the loop of [simulate], on its own. *)
Definition one_year : M (BioSim * Process) unit :=
  new_island_population <- self_island_annual_cycle ;;
  herbivore_list_append new_island_population.1 ;;;
  carnivore_list_append new_island_population.2.

(** The simulation and the process after [k] more years: what [k] rounds of
    the loop in [simulate] amount to. *)
Definition after_years (k : nat) (σ : BioSim * Process) : BioSim * Process :=
  let st := param_store σ.2 in
  let later := years_later st k (island σ.1) (random_state σ.2) in
  let totals := yearly_totals st k (island σ.1) (random_state σ.2) in
  ({| last_year_simulated := last_year_simulated σ.1;
      island_map := island_map σ.1;
      ini_pop := ini_pop σ.1;
      island := later.1;
      herbivore_list := herbivore_list σ.1 ++ totals.*1;
      carnivore_list := carnivore_list σ.1 ++ totals.*2;
      ymax_animals := ymax_animals σ.1;
      cmax_animals := cmax_animals σ.1;
      img_base := img_base σ.1;
      img_fmt := img_fmt σ.1 |},
   {| random_state := later.2;
      param_store := st;
      call_log := call_log σ.2 ++ replicate k EvAnnualCycle |}).

(** The years a sequence of calls simulates: every [simulate(n)] counts for
    the [n] rounds of its loop, none when [n <= 0]. *)
Fixpoint simulated_years (cs : list Call) : nat :=
  match cs with
  | [] => 0
  | CallSimulate n _ _ :: rest => Z.to_nat n + simulated_years rest
  | _ :: rest => simulated_years rest
  end.

(** The parameter store, the island and the random source under the calls
    the island module itself receives in a sequence of calls, with no wrapper
    in between: [simulate(n)] is [n] yearly advances, [add_population] is
    [populate_the_island], a setter called on a class is that class's setter,
    and a setter called on a string reaches nothing.  The random source is
    only ever handed from one of these calls to the next. *)
Fixpoint island_run (cs : list Call) (st : Store) (isl : Island) (r : Rng)
    : Store * Island * Rng :=
  match cs with
  | [] => (st, isl, r)
  | CallSimulate n _ _ :: rest =>
      let later := years_later st (Z.to_nat n) isl r in
      island_run rest st later.1 later.2
  | CallAddPopulation population :: rest =>
      let res := populate_the_island population st isl r in
      island_run rest st res.1.2 res.2
  | CallSetAnimalParameters (ClassObj cls) params :: rest =>
      island_run rest (species_set_animal_parameters cls params st).2 isl r
  | CallSetLandscapeParameters (ClassObj cls) params :: rest =>
      island_run rest (landscape_set_landscape_parameters cls params st).2
        isl r
  | _ :: rest => island_run rest st isl r
  end.

End Wrapper.

(** ** A model of [biosim.island]

    The engine behind the wrapper, as far as the specification pins it down:
    the map, the cells, [populate], the aggregate accessors and the parameter
    store.  Floating-point numbers, the birth-weight distribution and the six
    stochastic phases of a year are parameters of the model. *)
Module IslandSpec.

Inductive Terrain := Water | Lowland | Highland | Desert.

Inductive Species := Herbivore | Carnivore.

#[global] Instance Terrain_eq_dec : EqDecision Terrain.
Proof. solve_decision. Defined.

#[global] Instance Species_eq_dec : EqDecision Species.
Proof. solve_decision. Defined.

(** Modelled from the spec: the terrain letters of the map specification
    (section 6), read by the missing [Island] constructor. *)
Definition terrain_of_letter (c : ascii) : option Terrain :=
  if decide (c = "W"%char) then Some Water
  else if decide (c = "L"%char) then Some Lowland
  else if decide (c = "H"%char) then Some Highland
  else if decide (c = "D"%char) then Some Desert
  else None.

(** Modelled from the spec: the two recognized species names (section 6; the
    names are the ones in the docstring of [BioSim.__init__]). *)
Definition species_of_name (s : string) : option Species :=
  if decide (s = "Herbivore") then Some Herbivore
  else if decide (s = "Carnivore") then Some Carnivore
  else None.

Definition newline : ascii := ascii_of_nat 10.

(** The rows of a multi-line string: [s.split("\n")]. *)
Fixpoint split_rows (cs : list ascii) : list (list ascii) :=
  match cs with
  | [] => [[]]
  | c :: rest =>
      if decide (c = newline) then [] :: split_rows rest
      else match split_rows rest with
           | row :: rows => (c :: row) :: rows
           | [] => [[c]]
           end
  end.

Definition rectangular {A} (rows : list (list A)) : bool :=
  match rows with
  | [] => false
  | top :: rest => forallb (fun row => length row =? length top)%nat rest
  end.

Definition is_water (t : Terrain) : bool := bool_decide (t = Water).

Definition perimeter_water (rows : list (list Terrain)) : bool :=
  match head rows, last rows with
  | Some top, Some bottom =>
      forallb is_water top && forallb is_water bottom
      && forallb (fun row =>
           bool_decide (head row = Some Water ∧ last row = Some Water)) rows
  | _, _ => false
  end.

Section Engine.
(** Numbers that are floats in Python: weights, fodder, parameter values. *)
Variable Float : Type.
(** The state of the shared random source. *)
Variable RandomState : Type.
Variable seeded : Z -> RandomState.

Record Animal := {
  species : Species;
  age : Z;
  weight : Float;
}.

Record Cell := {
  terrain : Terrain;
  fodder : Float;
  herbivores : list Animal;
  carnivores : list Animal;
}.

Abbreviation Grid := (list (list Cell)).

(** Modelled from the spec: the parameter store (sections 2 and 4.1), one
    dictionary of named constants per species and per landscape type. *)
Record ParamStore := {
  species_params : Species -> gmap string Float;
  landscape_params : Terrain -> gmap string Float;
}.

(** The allowed numeric range of a species parameter, and the test for a
    non-negative number. *)
Variable species_in_range : Species -> string -> Float -> bool.
Variable nonnegative : Float -> bool.
(** The fodder a fresh cell starts with. *)
Variable initial_fodder : ParamStore -> Terrain -> Float.
(** A sample of the birth-weight distribution of a species. *)
Variable birth_weight : ParamStore -> Species -> RandomState -> Float * RandomState.
(** The six phases of a year over the whole grid. *)
Variable yearly_phases : ParamStore -> Grid -> RandomState -> Grid * RandomState.

(** *** Parameter store *)

(** Every provided key is an allowed name and its value is in range. *)
Definition override_ok (allowed : gmap string Float)
    (in_range : string -> Float -> bool) (values : gmap string Float) : bool :=
  bool_decide
    (map_Forall (fun k v => is_Some (allowed !! k) ∧ in_range k v = true)
       values).

(** Modelled from the spec: [set_species_parameters(species, values)] of
    section 4.1, the missing [set_animal_parameters] of the species classes:
    validate every provided key, then apply the partial override. *)
Definition store_set_species_parameters (sp : Species)
    (values : gmap string Float) (st : ParamStore)
    : outcome unit * ParamStore :=
  if override_ok (species_params st sp) (species_in_range sp) values
  then (Returns tt,
        {| species_params :=
             <[sp := values ∪ species_params st sp]> (species_params st);
           landscape_params := landscape_params st |})
  else (Raises (Engine ParameterError), st).

(** Modelled from the spec: [set_landscape_parameters(type, values)] of
    section 4.1: the same contract; fails for Water and for a negative
    value. *)
Definition store_set_landscape_parameters (t : Terrain)
    (values : gmap string Float) (st : ParamStore)
    : outcome unit * ParamStore :=
  if decide (t = Water) then (Raises (Engine ParameterError), st)
  else if override_ok (landscape_params st t) (fun _ => nonnegative) values
  then (Returns tt,
        {| species_params := species_params st;
           landscape_params :=
             <[t := values ∪ landscape_params st t]> (landscape_params st) |})
  else (Raises (Engine ParameterError), st).

(** *** Construction from a map *)

Definition fresh_cell (st : ParamStore) (t : Terrain) : Cell :=
  {| terrain := t; fodder := initial_fodder st t;
     herbivores := []; carnivores := [] |}.

(** Modelled from the spec: the missing constructor [Island(island_map)],
    section 4.3: a format error for an unknown letter, for rows of unequal
    length and for a perimeter cell that is not Water. *)
Definition construct (island_map : string) (st : ParamStore) (r : RandomState)
    : outcome Grid * RandomState :=
  match mapM (mapM terrain_of_letter)
          (split_rows (String.list_ascii_of_string island_map)) with
  | None => (Raises (Engine MapFormatError), r)
  | Some rows =>
      if rectangular rows && perimeter_water rows
      then (Returns (map (map (fresh_cell st)) rows), r)
      else (Raises (Engine MapFormatError), r)
  end.

(** *** Populating *)

(** An animal descriptor [{species, age?, weight?}] and an entry of a
    population specification (section 6). *)
Record Descriptor := {
  d_species : string;
  d_age : option Z;
  d_weight : option Float;
}.

Record Entry := {
  loc : Z * Z;
  pop : list Descriptor;
}.

(** The cell at a 1-indexed (row, column) coordinate, if in bounds. *)
Definition cell_at (g : Grid) (rc : Z * Z) : option Cell :=
  if bool_decide (1 ≤ rc.1 ∧ 1 ≤ rc.2)
  then g !! Z.to_nat (rc.1 - 1) ≫= (.!! Z.to_nat (rc.2 - 1))
  else None.

Definition update_cell (f : Cell -> Cell) (rc : Z * Z) (g : Grid) : Grid :=
  alter (alter f (Z.to_nat (rc.2 - 1))) (Z.to_nat (rc.1 - 1)) g.

Definition make_animal (st : ParamStore) (sp : Species) (d : Descriptor)
    (r : RandomState) : Animal * RandomState :=
  match d_weight d with
  | Some w => ({| species := sp; age := default 0 (d_age d); weight := w |}, r)
  | None =>
      let '(w, r') := birth_weight st sp r in
      ({| species := sp; age := default 0 (d_age d); weight := w |}, r')
  end.

Fixpoint make_animals (st : ParamStore) (ds : list (Species * Descriptor))
    (r : RandomState) : list Animal * RandomState :=
  match ds with
  | [] => ([], r)
  | (sp, d) :: rest =>
      let '(a, r1) := make_animal st sp d r in
      let '(more, r2) := make_animals st rest r1 in
      (a :: more, r2)
  end.

(** Into the cell's collection of the animal's species. *)
Definition add_animal (c : Cell) (a : Animal) : Cell :=
  match species a with
  | Herbivore =>
      {| terrain := terrain c; fodder := fodder c;
         herbivores := herbivores c ++ [a]; carnivores := carnivores c |}
  | Carnivore =>
      {| terrain := terrain c; fodder := fodder c;
         herbivores := herbivores c; carnivores := carnivores c ++ [a] |}
  end.

Definition recognized (d : Descriptor) : option (Species * Descriptor) :=
  (fun sp => (sp, d)) <$> species_of_name (d_species d).

(** One entry: checked as a whole before any of its animals is inserted. *)
Definition populate_entry (st : ParamStore) (e : Entry) (g : Grid)
    (r : RandomState) : outcome unit * Grid * RandomState :=
  match cell_at g (loc e) with
  | None => (Raises (Engine PopulationError), g, r)
  | Some c =>
      if decide (terrain c = Water)
      then (Raises (Engine PopulationError), g, r)
      else match mapM recognized (pop e) with
           | None => (Raises (Engine PopulationError), g, r)
           | Some ds =>
               let '(animals, r') := make_animals st ds r in
               (Returns tt,
                update_cell (fun c => foldl add_animal c animals) (loc e) g,
                r')
           end
  end.

(** Modelled from the spec: [populate(spec)] of section 4.3, the missing
    [Island.populate_the_island]: entry by entry, in order; an entry that
    fails ends the call and leaves the earlier entries applied (section 7). *)
Fixpoint populate (es : list Entry) (st : ParamStore) (g : Grid)
    (r : RandomState) : outcome unit * Grid * RandomState :=
  match es with
  | [] => (Returns tt, g, r)
  | e :: rest =>
      match populate_entry st e g r with
      | (Returns _, g', r') => populate rest st g' r'
      | (Raises x, g', r') => (Raises x, g', r')
      end
  end.

(** *** Aggregate accessors *)

Definition count_in (sel : Cell -> list Animal) (g : Grid) : nat :=
  sum_list_with (sum_list_with (fun c => length (sel c))) g.

(** Modelled from the spec: the total population per species across the whole
    grid (section 4.3), the missing [Island.total_island_population]. *)
Definition total_population (g : Grid) : Z * Z :=
  (Z.of_nat (count_in herbivores g), Z.of_nat (count_in carnivores g)).

(** Modelled from the spec: the per-cell counts per species in row-major
    order (section 4.3), the missing [Island.population_in_each_cell]. *)
Definition cell_populations (g : Grid) : list (Z * Z) :=
  (fun c => (Z.of_nat (length (herbivores c)),
             Z.of_nat (length (carnivores c)))) <$> concat g.

(** The model as an island module. *)
Definition island_module : IslandModule :=
  {| Island := Grid;
     Population := list Entry;
     Rng := RandomState;
     Store := ParamStore;
     SpeciesClass := Species;
     LandscapeClass := Terrain;
     ParamDict := gmap string Float;
     seed_state := seeded;
     Island_init := construct;
     populate_the_island := populate;
     advance_year := yearly_phases;
     total_island_population := total_population;
     population_in_each_cell := cell_populations;
     species_set_animal_parameters := store_set_species_parameters;
     landscape_set_landscape_parameters := store_set_landscape_parameters |}.

(** What a population specification asks for, and when it is valid. *)
Definition described (sp : Species) (es : list Entry) : nat :=
  sum_list_with (fun e =>
    length (filter (fun d => species_of_name (d_species d) = Some sp) (pop e)))
    es.

Definition entry_valid (g : Grid) (e : Entry) : Prop :=
  (∃ c, cell_at g (loc e) = Some c ∧ terrain c ≠ Water)
  ∧ Forall (fun d => is_Some (species_of_name (d_species d))) (pop e).

(** Every cell of [g] is still there in [g'], on the same terrain, holding
    the animals it held, in front of any new ones. *)
Definition grows (g g' : Grid) : Prop :=
  ∀ rc c, cell_at g rc = Some c →
    ∃ c', cell_at g' rc = Some c'
          ∧ terrain c' = terrain c
          ∧ herbivores c `prefix_of` herbivores c'
          ∧ carnivores c `prefix_of` carnivores c'.

(** An animal as a descriptor asks for it: of the named species, of the given
    age or newborn, of the given weight or of a weight sampled from the birth
    distribution of its species. *)
Definition as_described (st : ParamStore) (d : Descriptor) (a : Animal)
    : Prop :=
  species_of_name (d_species d) = Some (species a)
  ∧ age a = default 0 (d_age d)
  ∧ match d_weight d with
    | Some w => weight a = w
    | None => ∃ r, weight a = (birth_weight st (species a) r).1
    end.

(** The descriptors a population specification addresses to a coordinate, in
    the order of the specification. *)
Definition addressed_to (rc : Z * Z) (es : list Entry) : list Descriptor :=
  concat (pop <$> filter (fun e => loc e = rc) es).

End Engine.
End IslandSpec.

Arguments IslandSpec.species {Float} _.
Arguments IslandSpec.age {Float} _.
Arguments IslandSpec.weight {Float} _.
Arguments IslandSpec.terrain {Float} _.
Arguments IslandSpec.fodder {Float} _.
Arguments IslandSpec.herbivores {Float} _.
Arguments IslandSpec.carnivores {Float} _.
Arguments IslandSpec.species_params {Float} _ _.
Arguments IslandSpec.landscape_params {Float} _ _.
Arguments IslandSpec.d_species {Float} _.
Arguments IslandSpec.d_age {Float} _.
Arguments IslandSpec.d_weight {Float} _.
Arguments IslandSpec.loc {Float} _.
Arguments IslandSpec.pop {Float} _.
Arguments IslandSpec.cell_at {Float} g rc.
Arguments IslandSpec.count_in {Float} sel g.
Arguments IslandSpec.total_population {Float} g.
Arguments IslandSpec.described {Float} sp es.
Arguments IslandSpec.entry_valid {Float} g e.
Arguments IslandSpec.grows {Float} g g'.
Arguments IslandSpec.override_ok {Float} allowed in_range values.
Arguments IslandSpec.store_set_species_parameters {Float}
  species_in_range sp values st.
Arguments IslandSpec.store_set_landscape_parameters {Float}
  nonnegative t values st.
Arguments IslandSpec.fresh_cell {Float} initial_fodder st t.
Arguments IslandSpec.construct {Float RandomState}
  initial_fodder island_map st r.
Arguments IslandSpec.update_cell {Float} f rc g.
Arguments IslandSpec.make_animal {Float RandomState} birth_weight st sp d r.
Arguments IslandSpec.make_animals {Float RandomState} birth_weight st ds r.
Arguments IslandSpec.add_animal {Float} c a.
Arguments IslandSpec.recognized {Float} d.
Arguments IslandSpec.populate_entry {Float RandomState} birth_weight st e g r.
Arguments IslandSpec.populate {Float RandomState} birth_weight es st g r.
Arguments IslandSpec.cell_populations {Float} g.
Arguments IslandSpec.as_described {Float RandomState} birth_weight st d a.
Arguments IslandSpec.addressed_to {Float} rc es.

(** ** A quiet island

    An instance of the model in which numbers are integers, the random source
    is a counter of the draws made, a newborn weighs 8, and a year is quiet: no
    animal feeds, breeds, moves or dies, each one only grows a year older. *)
Module Quiet.
Import IslandSpec.

Definition older (a : Animal Z) : Animal Z :=
  {| species := species a; age := age a + 1; weight := weight a |}.

Definition quiet_cell (c : Cell Z) : Cell Z :=
  {| terrain := terrain c; fodder := fodder c;
     herbivores := older <$> herbivores c;
     carnivores := older <$> carnivores c |}.

Definition quiet_year (st : ParamStore Z) (g : list (list (Cell Z))) (r : Z)
    : list (list (Cell Z)) * Z :=
  (map (map quiet_cell) g, r).

Definition module : IslandModule :=
  island_module Z Z (fun seed => seed)
    (fun _ _ v => 0 <=? v) (fun v => 0 <=? v)
    (fun _ _ => 0) (fun _ _ r => (8, r + 1)) quiet_year.

Definition default_store : ParamStore Z :=
  {| species_params := fun sp =>
       match sp with
       | Herbivore => {[ "F" := 10 ]}
       | Carnivore => {[ "F" := 50 ]}
       end;
     landscape_params := fun t =>
       match t with
       | Lowland => {[ "f_max" := 800 ]}
       | Highland => {[ "f_max" := 300 ]}
       | _ => ∅
       end |}.

(** The map of the scenario in section 8: one Lowland cell inside Water. *)
Definition one_cell_map : string :=
  "WWW" +:+ String newline "WLW" +:+ String newline "WWW".

Definition a_herbivore : Descriptor Z :=
  {| d_species := "Herbivore"; d_age := Some 5; d_weight := Some 20 |}.

Definition a_carnivore : Descriptor Z :=
  {| d_species := "Carnivore"; d_age := None; d_weight := None |}.

Definition two_animals : list (Entry Z) :=
  [ {| loc := (2, 2); pop := [a_herbivore; a_carnivore] |} ].

Definition one_herbivore : list (Entry Z) :=
  [ {| loc := (2, 2); pop := [a_herbivore] |} ].

(** A fresh process: the random source in some state, nothing called yet. *)
Definition fresh_process (r : Z) : Process (IM := module) :=
  {| random_state := r : @Rng module;
     param_store := default_store : @Store module;
     call_log := [] |}.

(** The simulation and the process right after
    [BioSim(one_cell_map, two_animals, seed=7)] in a fresh process. *)
Definition water_cell : Cell Z :=
  {| terrain := Water; fodder := 0; herbivores := []; carnivores := [] |}.

Definition the_island : list (list (Cell Z)) :=
  [ [water_cell; water_cell; water_cell];
    [water_cell;
     {| terrain := Lowland; fodder := 0;
        herbivores := [ {| species := Herbivore; age := 5; weight := 20 |} ];
        carnivores := [ {| species := Carnivore; age := 0; weight := 8 |} ] |};
     water_cell];
    [water_cell; water_cell; water_cell] ].

Definition the_sim : BioSim (IM := module) :=
  {| last_year_simulated := 0;
     island_map := one_cell_map;
     ini_pop := two_animals : @Population module;
     island := the_island : @Island module;
     herbivore_list := [1];
     carnivore_list := [1];
     ymax_animals := None;
     cmax_animals := None;
     img_base := None;
     img_fmt := "png" |}.

Definition the_process : Process (IM := module) :=
  {| random_state := 8 : @Rng module;
     param_store := default_store : @Store module;
     call_log := [EvSeed 7; EvIslandInit one_cell_map; EvPopulate] |}.

(** A client session on it: three years, one more herbivore, two years. *)
Definition a_session : list (Call (IM := module)) :=
  [ CallSimulate 3 (Some 1) None;
    CallAddPopulation (one_herbivore : @Population module);
    CallSimulate 2 None None ].

(** A map whose only row is open to the sea, and a population aimed at a
    Water cell. *)
Definition open_map : string := "WLW".

Definition into_the_water : list (Entry Z) :=
  [ {| loc := (1, 1); pop := [a_herbivore] |} ].

(** The process a construction on [open_map] with seed 7 leaves behind. *)
Definition process_after_open_map : Process (IM := module) :=
  {| random_state := 7 : @Rng module;
     param_store := default_store : @Store module;
     call_log := [EvSeed 7; EvIslandInit open_map] |}.

End Quiet.


(** * Properties of the wrapper *)

Section Loops.
Context {Σ : Type}.

(** A loop whose body ignores the loop variable only counts. *)
Lemma for_each_ignores_items {A B} (xs : list A) (ys : list B)
    (body : M Σ unit) :
  length xs = length ys →
  for_each xs (fun _ => body) = for_each ys (fun _ => body).
Proof.
  revert ys. induction xs as [|x xs IH]; intros [|y ys] Hlen;
    simpl in *; try discriminate; [done|].
  by rewrite (IH ys) by congruence.
Qed.

Lemma py_range_length (n : Z) : length (py_range n) = Z.to_nat n.
Proof. unfold py_range. by rewrite length_fmap, length_seq. Qed.

Lemma py_range_nonpositive (n : Z) : n ≤ 0 → py_range n = [].
Proof.
  intros Hn. unfold py_range. by replace (Z.to_nat n) with 0%nat by lia.
Qed.

End Loops.

Section WrapperFacts.
Context `{IM : IslandModule}.

Lemma years_later_S (st : Store) (k : nat) (isl : Island) (r : Rng) :
  years_later st (S k) isl r
  = years_later st k (advance_year st isl r).1 (advance_year st isl r).2.
Proof. simpl. by destruct (advance_year st isl r). Qed.

Lemma yearly_totals_S (st : Store) (k : nat) (isl : Island) (r : Rng) :
  yearly_totals st (S k) isl r
  = total_island_population (advance_year st isl r).1
    :: yearly_totals st k (advance_year st isl r).1 (advance_year st isl r).2.
Proof. simpl. by destruct (advance_year st isl r). Qed.

Lemma yearly_totals_length (st : Store) (k : nat) (isl : Island) (r : Rng) :
  length (yearly_totals st k isl r) = k.
Proof.
  revert isl r. induction k as [|k IH]; intros isl r; [done|].
  rewrite yearly_totals_S. simpl. by rewrite IH.
Qed.

(** Entry [k] of the yearly totals is the island's total [k + 1] years on. *)
Lemma yearly_totals_lookup (st : Store) (n k : nat) (isl : Island) (r : Rng) :
  (k < n)%nat →
  yearly_totals st n isl r !! k
  = Some (total_island_population (years_later st (S k) isl r).1).
Proof.
  revert k isl r. induction n as [|n IH]; intros k isl r Hk; [lia|].
  rewrite yearly_totals_S, years_later_S.
  destruct k as [|k]; [done|].
  simpl lookup. rewrite IH by lia. by rewrite years_later_S.
Qed.

Lemma one_year_after_years (σ : BioSim * Process) :
  one_year σ = (Returns tt, after_years 1 σ).
Proof.
  destruct σ as [self p].
  unfold one_year, after_years, bind, self_island_annual_cycle,
    call_annual_cycle, annual_cycle, herbivore_list_append,
    carnivore_list_append, modify, with_island, with_herbivore_list,
    with_carnivore_list, log.
  simpl. by destruct (advance_year _ _ _) as [isl' r'].
Qed.

Lemma after_years_S (k : nat) (σ : BioSim * Process) :
  after_years (S k) σ = after_years k (after_years 1 σ).
Proof.
  destruct σ as [self p]. unfold after_years. cbn [fst snd].
  rewrite !years_later_S, !yearly_totals_S.
  cbn [years_later yearly_totals fst snd fmap list_fmap replicate].
  destruct (advance_year _ _ _) as [isl' r'].
  simpl. by rewrite <- !app_assoc.
Qed.

Lemma rounds_after_years {A} (xs : list A) (σ : BioSim * Process) :
  for_each xs (fun _ => one_year) σ = (Returns tt, after_years (length xs) σ).
Proof.
  revert σ. induction xs as [|x xs IH]; intros σ.
  - destruct σ as [[] []]. unfold after_years. simpl.
    by rewrite !app_nil_r.
  - simpl. unfold bind at 1. rewrite one_year_after_years, IH.
    by rewrite (after_years_S (length xs)).
Qed.

(** [simulate] never raises, and is [after_years]. *)
Lemma simulate_after_years (num_years : Z) (vis_years img_years : option Z)
    (σ : BioSim * Process) :
  simulate num_years vis_years img_years σ
  = (Returns tt, after_years (Z.to_nat num_years) σ).
Proof.
  unfold simulate. fold one_year.
  by rewrite rounds_after_years, py_range_length.
Qed.

(** What a successful construction has done, step by step. *)
Lemma BioSim_init_Returns (island_map : string) (ini_pop : Population)
    (seed : Z) (ymax_animals : option Z)
    (cmax_animals : option (gmap string Z))
    (img_base : option string) (img_fmt : string)
    (p0 p : Process) (self : BioSim) :
  BioSim_init island_map ini_pop seed ymax_animals cmax_animals img_base
    img_fmt p0 = (Returns self, p) →
  ∃ isl0 r1 isl r2,
    Island_init island_map (param_store p0) (seed_state seed)
      = (Returns isl0, r1)
    ∧ populate_the_island ini_pop (param_store p0) isl0 r1
      = (Returns tt, isl, r2)
    ∧ self = {| last_year_simulated := 0;
                island_map := island_map;
                ini_pop := ini_pop;
                island := isl;
                herbivore_list := [(total_island_population isl).1];
                carnivore_list := [(total_island_population isl).2];
                ymax_animals := ymax_animals;
                cmax_animals := cmax_animals;
                img_base := img_base;
                img_fmt := img_fmt |}
    ∧ p = {| random_state := r2;
             param_store := param_store p0;
             call_log := call_log p0
                         ++ [EvSeed seed; EvIslandInit island_map;
                             EvPopulate] |}.
Proof.
  unfold BioSim_init, bind, random_seed, modify, new_Island, call_populate,
    log.
  cbn [random_state param_store call_log].
  destruct (Island_init _ _ _) as [[isl0|e] r1] eqn:Hinit; [|discriminate].
  cbn [random_state param_store call_log].
  destruct (populate_the_island _ _ _ _) as [[[[]|e] isl] r2] eqn:Hpop;
    [|discriminate].
  intros [= <- <-]. exists isl0, r1, isl, r2.
  by rewrite <- !app_assoc.
Qed.

(** No call changes [last_year_simulated]. *)
Lemma perform_keeps_last_year (c : Call) (σ : BioSim * Process) :
  last_year_simulated (perform c σ).2.1 = last_year_simulated σ.1.
Proof.
  destruct σ as [self p].
  destruct c as [n v i|population|[name|cls] params|[name|cls] params];
    cbn [perform].
  - by rewrite simulate_after_years.
  - unfold add_population, self_island_populate, call_populate.
    by destruct (populate_the_island _ _ _ _) as [[o isl'] r'].
  - done.
  - unfold set_animal_parameters, lift_store.
    by destruct (species_set_animal_parameters _ _ _).
  - done.
  - unfold set_landscape_parameters, lift_store.
    by destruct (landscape_set_landscape_parameters _ _ _).
Qed.

Lemma run_calls_keeps_last_year (cs : list Call) (σ : BioSim * Process) :
  last_year_simulated (run_calls cs σ).1 = last_year_simulated σ.1.
Proof.
  revert σ. induction cs as [|c cs IH]; intros σ; [done|].
  cbn [run_calls]. by rewrite IH, perform_keeps_last_year.
Qed.

(** The events one call adds to the log: never a seeding. *)
Ltac no_seeding :=
  let Hin := fresh "Hin" in
  intros ? Hin;
  repeat (apply elem_of_cons in Hin as [Hin|Hin]; [discriminate|]);
  by apply elem_of_nil in Hin.

Lemma unseeded_app (evs1 evs2 : list Event) :
  unseeded evs1 → unseeded evs2 → unseeded (evs1 ++ evs2).
Proof.
  intros H1 H2 seed Hin. apply elem_of_app in Hin as [Hin|Hin].
  - by apply (H1 seed).
  - by apply (H2 seed).
Qed.

Lemma unseeded_replicate_cycle (k : nat) :
  unseeded (replicate k EvAnnualCycle).
Proof. intros seed Hin. apply elem_of_replicate_inv in Hin. discriminate. Qed.

Lemma perform_log (c : Call) (σ : BioSim * Process) :
  ∃ evs, call_log (perform c σ).2.2 = call_log σ.2 ++ evs ∧ unseeded evs.
Proof.
  destruct σ as [self p].
  destruct c as [n v i|population|[name|cls] params|[name|cls] params];
    cbn [perform].
  - rewrite simulate_after_years. eexists. split; [done|].
    apply unseeded_replicate_cycle.
  - unfold add_population, self_island_populate, call_populate.
    destruct (populate_the_island _ _ _ _) as [[o isl'] r'].
    exists [EvPopulate]. split; [done|]. no_seeding.
  - exists []. split; [by rewrite app_nil_r|]. no_seeding.
  - unfold set_animal_parameters, lift_store.
    destruct (species_set_animal_parameters _ _ _).
    exists [EvSetParameters]. split; [done|]. no_seeding.
  - exists []. split; [by rewrite app_nil_r|]. no_seeding.
  - unfold set_landscape_parameters, lift_store.
    destruct (landscape_set_landscape_parameters _ _ _).
    exists [EvSetParameters]. split; [done|]. no_seeding.
Qed.

Lemma run_calls_log (cs : list Call) (σ : BioSim * Process) :
  ∃ evs, call_log (run_calls cs σ).2 = call_log σ.2 ++ evs ∧ unseeded evs.
Proof.
  revert σ. induction cs as [|c cs IH]; intros σ.
  - exists []. split; [by rewrite app_nil_r|]. no_seeding.
  - cbn [run_calls].
    destruct (IH (perform c σ).2) as (evs2 & -> & H2).
    destruct (perform_log c σ) as (evs1 & -> & H1).
    exists (evs1 ++ evs2). split; [by rewrite app_assoc|].
    by apply unseeded_app.
Qed.

(** *** Reproducibility *)

(** C1. Two runs built from the same map, population, seed and parameter
    store, and simulated for the same number of years, end with the same
    herbivore and carnivore histories (or fail alike), whatever state the
    random source was in before each run, whatever had been called before, and
    whatever the plotting options are: the constructor seeds the source before
    anything draws from it. *)
Theorem same_seed_same_histories
    (island_map : string) (ini_pop : Population) (seed num_years : Z)
    (st : Store) (r1 r2 : Rng) (log1 log2 : list Event)
    (ymax1 ymax2 : option Z) (cmax1 cmax2 : option (gmap string Z))
    (base1 base2 : option string) (fmt1 fmt2 : string)
    (vis1 vis2 img1 img2 : option Z) :
  run_simulation island_map ini_pop seed ymax1 cmax1 base1 fmt1
    num_years vis1 img1
    {| random_state := r1; param_store := st; call_log := log1 |}
  = run_simulation island_map ini_pop seed ymax2 cmax2 base2 fmt2
      num_years vis2 img2
      {| random_state := r2; param_store := st; call_log := log2 |}.
Proof.
  unfold run_simulation, BioSim_init, bind, random_seed, modify, new_Island,
    call_populate, log.
  cbn [random_state param_store call_log].
  destruct (Island_init _ _ _) as [[isl0|e] r]; [|done].
  cbn [random_state param_store call_log].
  destruct (populate_the_island _ _ _ _) as [[[[]|e] isl] r']; [|done].
  by rewrite !simulate_after_years.
Qed.

(** *** The yearly loop *)

(** C2. [simulate(num_years)] with [num_years >= 0] returns normally, calls
    the island's annual cycle exactly [num_years] times, and appends exactly
    [num_years] entries to each history list, entry [k] being the island-wide
    total of the species after year [k + 1]; what the lists held before is
    still there, in front. *)
Theorem simulate_records_each_year
    (num_years : Z) (vis_years img_years : option Z)
    (self : BioSim) (p : Process) :
  0 ≤ num_years →
  ∃ self' p' hs cs,
    simulate num_years vis_years img_years (self, p)
      = (Returns tt, (self', p'))
    ∧ call_log p'
      = call_log p ++ replicate (Z.to_nat num_years) EvAnnualCycle
    ∧ island self'
      = (years_later (param_store p) (Z.to_nat num_years) (island self)
           (random_state p)).1
    ∧ herbivore_list self' = herbivore_list self ++ hs
    ∧ carnivore_list self' = carnivore_list self ++ cs
    ∧ Z.of_nat (length hs) = num_years
    ∧ Z.of_nat (length cs) = num_years
    ∧ ∀ k : nat, (k < Z.to_nat num_years)%nat →
        let isl_k :=
          (years_later (param_store p) (S k) (island self)
             (random_state p)).1 in
        hs !! k = Some (total_island_population isl_k).1
        ∧ cs !! k = Some (total_island_population isl_k).2.
Proof.
  intros Hn. rewrite simulate_after_years. unfold after_years.
  cbn [fst snd].
  set (ts := yearly_totals (param_store p) (Z.to_nat num_years)
               (island self) (random_state p)).
  eexists _, _, (ts.*1), (ts.*2).
  split; [reflexivity|]. cbn [call_log island herbivore_list carnivore_list].
  split_and!; try done.
  - rewrite length_fmap. unfold ts. rewrite yearly_totals_length. lia.
  - rewrite length_fmap. unfold ts. rewrite yearly_totals_length. lia.
  - intros k Hk. unfold ts.
    by rewrite !list_lookup_fmap, yearly_totals_lookup.
Qed.

(** X1. [simulate] with a number of years that is zero or negative is an
    empty loop: it returns and changes neither the simulation nor the
    process. *)
Lemma simulate_nonpositive (num_years : Z) (vis_years img_years : option Z)
    (σ : BioSim * Process) :
  num_years ≤ 0 → simulate num_years vis_years img_years σ = (Returns tt, σ).
Proof.
  intros Hn. unfold simulate. by rewrite py_range_nonpositive.
Qed.

(** X2. Two calls of [simulate] in a row, over [a] and [b] years, leave the
    simulation and the process exactly as one call over [a + b] years does,
    whatever the plotting arguments of the three calls. *)
Lemma simulate_twice (a b : Z) (v1 i1 v2 i2 v i : option Z)
    (σ : BioSim * Process) :
  0 ≤ a → 0 ≤ b →
  simulate b v2 i2 (simulate a v1 i1 σ).2 = simulate (a + b) v i σ.
Proof.
  intros Ha Hb. rewrite !simulate_after_years. cbn [snd].
  replace (Z.to_nat (a + b)) with (Z.to_nat a + Z.to_nat b)%nat by lia.
  f_equal. generalize (Z.to_nat b) as m. revert σ.
  induction (Z.to_nat a) as [|n IH]; intros σ m.
  - f_equal. destruct σ as [[] []]. unfold after_years. simpl.
    by rewrite !app_nil_r.
  - rewrite (after_years_S n), IH. by rewrite (after_years_S (n + m)).
Qed.

(** C9. The arguments [vis_years] and [img_years] have no influence on what
    [simulate] does: with any two choices the call has the same outcome and
    leaves the same state, in particular the same two history lists. *)
Theorem simulate_ignores_visualisation
    (num_years : Z) (vis1 img1 vis2 img2 : option Z)
    (σ : BioSim * Process) :
  simulate num_years vis1 img1 σ = simulate num_years vis2 img2 σ
  ∧ histories (simulate num_years vis1 img1 σ).2.1
    = histories (simulate num_years vis2 img2 σ).2.1.
Proof. split; reflexivity. Qed.

(** *** Construction *)

(** C7. A construction that succeeds has seeded the random source, built the
    island from the map string and populated that island with the initial
    population, in this order and with no yearly advance in between; each
    history list then holds one entry, the island-wide total of the species
    for the population just inserted. *)
Theorem construction_builds_then_populates
    (island_map : string) (ini_pop : Population) (seed : Z)
    (ymax_animals : option Z) (cmax_animals : option (gmap string Z))
    (img_base : option string) (img_fmt : string)
    (p0 p : Process) (self : BioSim) :
  BioSim_init island_map ini_pop seed ymax_animals cmax_animals img_base
    img_fmt p0 = (Returns self, p) →
  call_log p
  = call_log p0 ++ [EvSeed seed; EvIslandInit island_map; EvPopulate]
  ∧ (∃ isl0 r1 r2,
       Island_init island_map (param_store p0) (seed_state seed)
         = (Returns isl0, r1)
       ∧ populate_the_island ini_pop (param_store p0) isl0 r1
         = (Returns tt, island self, r2)
       ∧ random_state p = r2)
  ∧ herbivore_list self = [(total_island_population (island self)).1]
  ∧ carnivore_list self = [(total_island_population (island self)).2].
Proof.
  intros Hinit.
  apply BioSim_init_Returns in Hinit
    as (isl0 & r1 & isl & r2 & Hbuild & Hpop & -> & ->).
  cbn [call_log island herbivore_list carnivore_list random_state].
  split; [done|]. split; [|done]. by exists isl0, r1, r2.
Qed.

(** *** The year counter *)

(** C3. After a successful construction and any sequence of calls to
    [simulate], [add_population] and the parameter setters, the property
    [year] is 0: nothing but the constructor assigns [last_year_simulated]. *)
Theorem year_is_always_zero
    (island_map : string) (ini_pop : Population) (seed : Z)
    (ymax_animals : option Z) (cmax_animals : option (gmap string Z))
    (img_base : option string) (img_fmt : string)
    (p0 p : Process) (self : BioSim) (cs : list Call) :
  BioSim_init island_map ini_pop seed ymax_animals cmax_animals img_base
    img_fmt p0 = (Returns self, p) →
  year (run_calls cs (self, p)).1 = 0.
Proof.
  intros Hinit. unfold year. rewrite run_calls_keeps_last_year.
  by apply BioSim_init_Returns in Hinit as (? & ? & ? & ? & _ & _ & -> & _).
Qed.

(** *** Seeding *)

(** The wrapper hands the parameter store, the island and the random source
    from one call of the island module to the next and does nothing else to
    them. *)
Lemma perform_island_run (c : Call) (σ : BioSim * Process) :
  (param_store (perform c σ).2.2, island (perform c σ).2.1,
   random_state (perform c σ).2.2)
  = island_run [c] (param_store σ.2) (island σ.1) (random_state σ.2).
Proof.
  destruct σ as [self p].
  destruct c as [n v i|population|[name|cls] params|[name|cls] params];
    cbn [perform island_run fst snd].
  - by rewrite simulate_after_years.
  - unfold add_population, self_island_populate, call_populate.
    by destruct (populate_the_island _ _ _ _) as [[o isl'] r'].
  - done.
  - unfold set_animal_parameters, lift_store.
    by destruct (species_set_animal_parameters _ _ _).
  - done.
  - unfold set_landscape_parameters, lift_store.
    by destruct (landscape_set_landscape_parameters _ _ _).
Qed.

Lemma island_run_cons (c : Call) (cs : list Call) (st : Store)
    (isl : Island) (r : Rng) :
  island_run (c :: cs) st isl r
  = island_run cs (island_run [c] st isl r).1.1
      (island_run [c] st isl r).1.2 (island_run [c] st isl r).2.
Proof.
  by destruct c as [n v i|population|[name|cls] params|[name|cls] params].
Qed.

Lemma run_calls_island_run (cs : list Call) (σ : BioSim * Process) :
  (param_store (run_calls cs σ).2, island (run_calls cs σ).1,
   random_state (run_calls cs σ).2)
  = island_run cs (param_store σ.2) (island σ.1) (random_state σ.2).
Proof.
  revert σ. induction cs as [|c cs IH]; intros σ; [done|].
  cbn [run_calls]. rewrite IH, (island_run_cons c cs).
  by rewrite <- (perform_island_run c σ).
Qed.

(** C6. The random source is seeded once, by the constructor, before
    anything else: the island is built on the source as [random.seed(seed)]
    left it and populated on the source as the building left it, and the
    constructed simulation starts from the source as populating left it.
    From then on the source is only handed on: after [simulate(n)] it is in
    the state the [n] yearly advances left, after [add_population] in the
    state [populate_the_island] left, and after any sequence of calls in the
    state the island module's own calls reached, one after the other.  In the
    log of the run the seeding is the first event and no later call adds
    another. *)
Theorem seeded_once_before_everything
    (island_map : string) (ini_pop : Population) (seed : Z)
    (ymax_animals : option Z) (cmax_animals : option (gmap string Z))
    (img_base : option string) (img_fmt : string)
    (p0 p : Process) (self : BioSim) (cs : list Call) :
  BioSim_init island_map ini_pop seed ymax_animals cmax_animals img_base
    img_fmt p0 = (Returns self, p) →
  (∃ evs,
     call_log (run_calls cs (self, p)).2
     = call_log p0
       ++ [EvSeed seed; EvIslandInit island_map; EvPopulate] ++ evs
     ∧ unseeded evs)
  ∧ (∃ isl0 r1,
       Island_init island_map (param_store p0) (seed_state seed)
         = (Returns isl0, r1)
       ∧ populate_the_island ini_pop (param_store p0) isl0 r1
         = (Returns tt, island self, random_state p))
  ∧ random_state (run_calls cs (self, p)).2
    = (island_run cs (param_store p) (island self) (random_state p)).2
  ∧ (∀ (n : Z) (v i : option Z) (σ : BioSim * Process),
       random_state (simulate n v i σ).2.2
       = (years_later (param_store σ.2) (Z.to_nat n) (island σ.1)
            (random_state σ.2)).2)
  ∧ (∀ (population : Population) (σ : BioSim * Process),
       random_state (add_population population σ).2.2
       = (populate_the_island population (param_store σ.2) (island σ.1)
            (random_state σ.2)).2).
Proof.
  intros Hinit. split_and!.
  - destruct (run_calls_log cs (self, p)) as (evs & Hlog & Hevs).
    exists evs. split; [|done]. rewrite Hlog. cbn [snd].
    apply BioSim_init_Returns in Hinit as (? & ? & ? & ? & _ & _ & _ & ->).
    cbn [call_log]. by rewrite <- app_assoc.
  - apply BioSim_init_Returns in Hinit
      as (isl0 & r1 & isl & r2 & Hbuild & Hpop & -> & ->).
    by exists isl0, r1.
  - pose proof (run_calls_island_run cs (self, p)) as Hrun.
    cbn [fst snd] in Hrun. exact (f_equal snd Hrun).
  - intros n v i σ.
    pose proof (perform_island_run (CallSimulate n v i) σ) as Hrun.
    cbn [perform island_run] in Hrun. exact (f_equal snd Hrun).
  - intros population σ.
    pose proof (perform_island_run (CallAddPopulation population) σ) as Hrun.
    cbn [perform island_run] in Hrun. exact (f_equal snd Hrun).
Qed.

(** *** Counting animals *)

(** C10. [num_animals_per_species] is a dictionary with exactly the keys
    "Herbivores" and "Carnivore", whose values are the totals the island
    reports at the moment of the read; right after [add_population] these are
    the totals of the island as that call left it.  The carnivore key is not
    the column name "Carnivores" of [animal_distribution]. *)
Theorem num_animals_per_species_reads_island
    (self : BioSim) (population : Population) (p : Process) :
  dom (num_animals_per_species self)
    = ({[ "Herbivores"; "Carnivore" ]} : gset string)
  ∧ num_animals_per_species self !! "Herbivores"
    = Some (total_island_population (island self)).1
  ∧ num_animals_per_species self !! "Carnivore"
    = Some (total_island_population (island self)).2
  ∧ df_columns (animal_distribution self) = ["Herbivores"; "Carnivores"]
  ∧ num_animals_per_species self !! "Carnivores" = None
  ∧ (let populated :=
       (populate_the_island population (param_store p) (island self)
          (random_state p)).1.2 in
     num_animals_per_species (add_population population (self, p)).2.1
     = {[ "Herbivores" := (total_island_population populated).1;
          "Carnivore" := (total_island_population populated).2 ]}).
Proof.
  unfold num_animals_per_species. split_and!.
  - by rewrite dom_insert_L, dom_singleton_L.
  - by rewrite lookup_insert_eq.
  - rewrite lookup_insert_ne by done. by rewrite lookup_singleton_eq.
  - done.
  - rewrite lookup_insert_ne by done. by rewrite lookup_singleton_ne.
  - unfold add_population, self_island_populate, call_populate.
    by destruct (populate_the_island _ _ _ _) as [[o isl'] r'].
Qed.

Lemma num_animals_reads_last (self : BioSim) (p : Process)
    (hl cl : list Z) (h c : Z) :
  herbivore_list self = hl ++ [h] →
  carnivore_list self = cl ++ [c] →
  num_animals (self, p) = (Returns (h + c), (self, p)).
Proof.
  intros Hh Hc. unfold num_animals, bind, gets, index_last. cbn [fst].
  rewrite Hh, last_snoc. unfold ret at 1. cbn [fst].
  by rewrite Hc, last_snoc.
Qed.

(** X9. Right after a successful construction [num_animals] returns the
    number of animals the island reports, both species added up, and changes
    nothing. *)
Lemma num_animals_after_init
    (island_map : string) (ini_pop : Population) (seed : Z)
    (ymax_animals : option Z) (cmax_animals : option (gmap string Z))
    (img_base : option string) (img_fmt : string)
    (p0 p : Process) (self : BioSim) :
  BioSim_init island_map ini_pop seed ymax_animals cmax_animals img_base
    img_fmt p0 = (Returns self, p) →
  num_animals (self, p)
  = (Returns ((total_island_population (island self)).1
              + (total_island_population (island self)).2), (self, p)).
Proof.
  intros Hinit.
  apply BioSim_init_Returns in Hinit as (? & ? & isl & ? & _ & _ & -> & _).
  by apply (num_animals_reads_last _ _ [] []).
Qed.

Lemma yearly_totals_snoc (st : Store) (k : nat) (isl : Island) (r : Rng) :
  yearly_totals st (S k) isl r
  = yearly_totals st k isl r
    ++ [total_island_population (years_later st (S k) isl r).1].
Proof.
  revert isl r. induction k as [|k IH]; intros isl r.
  - simpl. by destruct (advance_year st isl r).
  - rewrite yearly_totals_S, IH, (yearly_totals_S st k), !years_later_S.
    done.
Qed.

(** X11. After a call of [simulate] over at least one year, from any state,
    [num_animals] returns the number of animals the island then reports:
    a simulated year brings the count up to date. *)
Lemma num_animals_after_simulate (num_years : Z)
    (vis_years img_years : option Z) (σ : BioSim * Process) :
  0 < num_years →
  let σ' := (simulate num_years vis_years img_years σ).2 in
  num_animals σ'
  = (Returns ((total_island_population (island σ'.1)).1
              + (total_island_population (island σ'.1)).2), σ').
Proof.
  intros Hn. rewrite simulate_after_years. cbn [snd].
  destruct (Z.to_nat num_years) as [|k] eqn:Hk; [lia|].
  destruct σ as [self p]. unfold after_years. cbn [fst snd].
  rewrite yearly_totals_snoc, !fmap_app. cbn [fmap list_fmap].
  eapply num_animals_reads_last; cbn [herbivore_list carnivore_list];
    by rewrite app_assoc.
Qed.

(** [add_population] leaves both history lists as they are. *)
Lemma add_population_keeps_histories (population : Population)
    (σ : BioSim * Process) :
  histories (add_population population σ).2.1 = histories σ.1.
Proof.
  destruct σ as [self p].
  unfold add_population, self_island_populate, call_populate.
  by destruct (populate_the_island _ _ _ _) as [[o isl'] r'].
Qed.

(** X10. Whatever population is added and whether or not the call raises,
    [num_animals] returns after [add_population] what it returned before. *)
Lemma num_animals_after_add_population (population : Population)
    (σ : BioSim * Process) :
  (num_animals (add_population population σ).2).1 = (num_animals σ).1.
Proof.
  pose proof (add_population_keeps_histories population σ) as Hh.
  unfold histories in Hh. injection Hh as Hh Hc.
  unfold num_animals, bind, gets, index_last. cbn [fst].
  rewrite Hh. destruct (last (herbivore_list σ.1)); [|done].
  unfold ret at 1 4. cbn [fst]. rewrite Hc.
  by destruct (last (carnivore_list σ.1)).
Qed.

(** *** The parameter setters *)

(** C5. Called with the name of a species or the code letter of a landscape,
    as the docstrings ask, both setters raise [AttributeError] whatever the
    parameters are, valid or not, and leave everything as it was: an override
    given this way is never applied. *)
Theorem setters_raise_on_names (name : string) (params : ParamDict)
    (σ : BioSim * Process) :
  set_animal_parameters (StrObj name) params σ
    = (Raises (AttributeError "set_animal_parameters"), σ)
  ∧ set_landscape_parameters (StrObj name) params σ
    = (Raises (AttributeError "set_landscape_parameters"), σ).
Proof. split; reflexivity. Qed.

(** Called with a class of the island module, the setters hand the
    parameters to the class and touch nothing but the store. *)
Lemma set_animal_parameters_delegates (cls : SpeciesClass)
    (params : ParamDict) (self : BioSim) (p : Process) :
  let res := species_set_animal_parameters cls params (param_store p) in
  let after := set_animal_parameters (ClassObj cls) params (self, p) in
  after.1 = res.1 ∧ after.2.1 = self
  ∧ param_store after.2.2 = res.2
  ∧ random_state after.2.2 = random_state p.
Proof.
  unfold set_animal_parameters, lift_store.
  by destruct (species_set_animal_parameters _ _ _).
Qed.

Lemma set_landscape_parameters_delegates (cls : LandscapeClass)
    (params : ParamDict) (self : BioSim) (p : Process) :
  let res := landscape_set_landscape_parameters cls params (param_store p) in
  let after := set_landscape_parameters (ClassObj cls) params (self, p) in
  after.1 = res.1 ∧ after.2.1 = self
  ∧ param_store after.2.2 = res.2
  ∧ random_state after.2.2 = random_state p.
Proof.
  unfold set_landscape_parameters, lift_store.
  by destruct (landscape_set_landscape_parameters _ _ _).
Qed.

End WrapperFacts.

(** * Properties of the island model *)

Section IslandFacts.
Import IslandSpec.
Context {Float RandomState : Type}.
Variable seeded : Z → RandomState.
Variable species_in_range : Species → string → Float → bool.
Variable nonnegative : Float → bool.
Variable initial_fodder : ParamStore Float → Terrain → Float.
Variable birth_weight :
  ParamStore Float → Species → RandomState → Float * RandomState.
Variable yearly_phases :
  ParamStore Float → list (list (Cell Float)) → RandomState
  → list (list (Cell Float)) * RandomState.

Let IMod : IslandModule :=
  island_module Float RandomState seeded species_in_range nonnegative
    initial_fodder birth_weight yearly_phases.

(** *** Cells and counts under an update in place *)

Lemma sum_list_with_alter {A} (h : A → nat) (f : A → A) (l : list A)
    (i : nat) (x : A) :
  l !! i = Some x →
  (sum_list_with h (alter f i l) + h x = sum_list_with h l + h (f x))%nat.
Proof.
  revert i. induction l as [|y l IH]; intros [|i] Hi; simplify_eq/=; [lia|].
  specialize (IH i Hi). lia.
Qed.

Lemma count_in_update (sel : Cell Float → list (Animal Float))
    (f : Cell Float → Cell Float) (rc : Z * Z)
    (g : list (list (Cell Float))) (c : Cell Float) :
  cell_at g rc = Some c →
  (count_in sel (update_cell f rc g) + length (sel c)
   = count_in sel g + length (sel (f c)))%nat.
Proof.
  unfold cell_at, update_cell, count_in. case_bool_decide; [|done].
  destruct (g !! Z.to_nat (rc.1 - 1)) as [row|] eqn:Hrow; [|done].
  cbn [mbind option_bind]. intros Hc.
  pose proof (sum_list_with_alter
    (sum_list_with (fun c => length (sel c)))
    (alter f (Z.to_nat (rc.2 - 1))) g _ row Hrow) as Hg.
  pose proof (sum_list_with_alter (fun c => length (sel c)) f row _ c Hc).
  lia.
Qed.

Lemma cell_at_update_eq (f : Cell Float → Cell Float) (rc : Z * Z)
    (g : list (list (Cell Float))) (c : Cell Float) :
  cell_at g rc = Some c → cell_at (update_cell f rc g) rc = Some (f c).
Proof.
  unfold cell_at, update_cell. case_bool_decide; [|done].
  destruct (g !! Z.to_nat (rc.1 - 1)) as [row|] eqn:Hrow; [|done].
  cbn [mbind option_bind]. intros Hc.
  rewrite list_lookup_alter_eq, Hrow. cbn [fmap option_fmap option_map mbind option_bind].
  by rewrite list_lookup_alter_eq, Hc.
Qed.

Lemma cell_at_update_ne (f : Cell Float → Cell Float) (rc rc' : Z * Z)
    (g : list (list (Cell Float))) :
  1 ≤ rc.1 ∧ 1 ≤ rc.2 → rc' ≠ rc →
  cell_at (update_cell f rc g) rc' = cell_at g rc'.
Proof.
  destruct rc as [i j], rc' as [i' j']. cbn [fst snd]. intros [Hi Hj] Hne.
  unfold cell_at, update_cell. cbn [fst snd]. case_bool_decide; [|done].
  destruct (decide (Z.to_nat (i - 1) = Z.to_nat (i' - 1))) as [Heq|Hrow].
  - rewrite <- Heq, list_lookup_alter_eq.
    destruct (g !! Z.to_nat (i - 1)) as [row|]; [|done].
    cbn [fmap option_fmap option_map mbind option_bind].
    apply list_lookup_alter_ne. intros Hcol. apply Hne. f_equal; lia.
  - by rewrite list_lookup_alter_ne.
Qed.

Lemma cell_at_in_bounds (g : list (list (Cell Float))) (rc : Z * Z)
    (c : Cell Float) :
  cell_at g rc = Some c → 1 ≤ rc.1 ∧ 1 ≤ rc.2.
Proof. unfold cell_at. by case_bool_decide. Qed.

Lemma grows_refl (g : list (list (Cell Float))) : grows g g.
Proof. intros rc c Hc. by exists c. Qed.

Lemma grows_trans (g1 g2 g3 : list (list (Cell Float))) :
  grows g1 g2 → grows g2 g3 → grows g1 g3.
Proof.
  intros H12 H23 rc c1 Hc1.
  destruct (H12 rc c1 Hc1) as (c2 & Hc2 & Ht2 & Hh2 & Hk2).
  destruct (H23 rc c2 Hc2) as (c3 & Hc3 & Ht3 & Hh3 & Hk3).
  exists c3. split_and!; [done|congruence|by etrans|by etrans].
Qed.

Lemma entry_valid_grows (g g' : list (list (Cell Float))) (e : Entry Float) :
  grows g g' → entry_valid g e → entry_valid g' e.
Proof.
  intros Hg [(c & Hc & Hland) Hnames]. split; [|done].
  destruct (Hg _ _ Hc) as (c' & Hc' & Ht & _). exists c'.
  split; [done|congruence].
Qed.

(** *** Animals made from descriptors *)

Lemma add_animals_cell (animals : list (Animal Float)) (c : Cell Float) :
  let c' := foldl add_animal c animals in
  terrain c' = terrain c
  ∧ herbivores c'
    = herbivores c ++ filter (fun a => species a = Herbivore) animals
  ∧ carnivores c'
    = carnivores c ++ filter (fun a => species a = Carnivore) animals.
Proof.
  revert c. induction animals as [|a animals IH]; intros c.
  - cbn [foldl]. rewrite !filter_nil, !app_nil_r. done.
  - cbn [foldl]. destruct (IH (add_animal c a)) as (Ht & Hh & Hk).
    cbv zeta. rewrite Ht, Hh, Hk. unfold add_animal.
    rewrite !filter_cons.
    destruct (species a) eqn:Hsp; cbn [terrain herbivores carnivores];
      repeat case_decide; try done; by rewrite <- ?app_assoc.
Qed.

Lemma make_animals_species (st : ParamStore Float)
    (ds : list (Species * Descriptor Float)) (r : RandomState) :
  species <$> (make_animals birth_weight st ds r).1 = ds.*1.
Proof.
  revert r. induction ds as [|[sp d] ds IH]; intros r; [done|].
  cbn [make_animals]. unfold make_animal.
  destruct (d_weight d) as [w|].
  - specialize (IH r). destruct (make_animals _ _ _ r) as [more r2].
    cbn [fst fmap list_fmap species] in *. by rewrite IH.
  - destruct (birth_weight st sp r) as [w r1].
    specialize (IH r1). destruct (make_animals _ _ _ r1) as [more r2].
    cbn [fst fmap list_fmap species] in *. by rewrite IH.
Qed.

(** As many animals of a species are made as descriptors name it. *)
Lemma recognized_count (sp : Species) (descriptors : list (Descriptor Float))
    (ds : list (Species * Descriptor Float)) (animals : list (Animal Float)) :
  mapM recognized descriptors = Some ds →
  species <$> animals = ds.*1 →
  length (filter (fun a => species a = sp) animals)
  = length (filter (fun d => species_of_name (d_species d) = Some sp)
              descriptors).
Proof.
  rewrite mapM_Some. intros Hds. revert animals.
  induction Hds as [|d [sp' d'] descriptors ds Hd _ IH]; intros animals Hsp.
  - by destruct animals.
  - destruct animals as [|a animals]; [done|].
    cbn [fmap list_fmap fst] in Hsp. injection Hsp as Ha Hrest.
    unfold recognized in Hd.
    destruct (species_of_name (d_species d)) as [sp0|] eqn:Hname;
      [|done].
    cbn [fmap option_fmap option_map] in Hd. injection Hd as -> ->.
    rewrite !filter_cons, Hname, Ha.
    specialize (IH animals Hrest).
    repeat case_decide; simplify_eq; cbn [length]; by rewrite ?IH.
Qed.

(** *** Populating *)

(** A valid entry is applied: its animals, and nothing else, are added to the
    cell it addresses. *)
Lemma populate_entry_valid (st : ParamStore Float) (e : Entry Float)
    (g : list (list (Cell Float))) (r : RandomState) :
  entry_valid g e →
  ∃ g' r',
    populate_entry birth_weight st e g r = (Returns tt, g', r')
    ∧ (∀ sp sel,
         sel = match sp with
               | Herbivore => herbivores
               | Carnivore => carnivores
               end →
         count_in sel g'
         = (count_in sel g
            + length (filter
                (fun d => species_of_name (d_species d) = Some sp)
                (pop e)))%nat)
    ∧ grows g g'
    ∧ (∀ rc, rc ≠ loc e → cell_at g' rc = cell_at g rc).
Proof.
  intros [(c & Hc & Hland) Hnames]. unfold populate_entry. rewrite Hc.
  rewrite decide_False by done.
  destruct (mapM recognized (pop e)) as [ds|] eqn:Hds; cycle 1.
  { exfalso. apply eq_None_not_Some in Hds. apply Hds, mapM_is_Some.
    eapply Forall_impl; [exact Hnames|]. intros d [sp Hsp].
    unfold compose, recognized. rewrite Hsp. by eexists. }
  pose proof (make_animals_species st ds r) as Hsp.
  destruct (make_animals birth_weight st ds r) as [animals r'].
  cbn [fst] in Hsp.
  destruct (add_animals_cell animals c) as (Ht & Hh & Hk).
  eexists _, _. split; [reflexivity|]. split_and!.
  - intros sp sel ->.
    pose proof (count_in_update
      (match sp with Herbivore => herbivores | Carnivore => carnivores end)
      (fun c => foldl add_animal c animals) (loc e) g c Hc) as Hcount.
    rewrite <- (recognized_count sp _ ds animals Hds Hsp).
    destruct sp; [rewrite Hh in Hcount|rewrite Hk in Hcount];
      rewrite length_app in Hcount; lia.
  - intros rc c0 Hc0. destruct (decide (rc = loc e)) as [->|Hne].
    + rewrite (cell_at_update_eq _ _ _ c Hc). eexists. split; [done|].
      assert (c0 = c) as -> by congruence.
      rewrite Ht, Hh, Hk. split_and!; [done|..]; by apply prefix_app_r.
    + rewrite cell_at_update_ne; [by exists c0|by eapply cell_at_in_bounds|done].
  - intros rc Hne.
    apply cell_at_update_ne; [by eapply cell_at_in_bounds|done].
Qed.

(** A valid population specification is applied entry by entry. *)
Lemma populate_valid (st : ParamStore Float) (es : list (Entry Float))
    (g : list (list (Cell Float))) (r : RandomState) :
  Forall (entry_valid g) es →
  ∃ g' r',
    populate birth_weight es st g r = (Returns tt, g', r')
    ∧ count_in herbivores g'
      = (count_in herbivores g + described Herbivore es)%nat
    ∧ count_in carnivores g'
      = (count_in carnivores g + described Carnivore es)%nat
    ∧ grows g g'
    ∧ (∀ rc, rc ∉ loc <$> es → cell_at g' rc = cell_at g rc).
Proof.
  revert g r. induction es as [|e es IH]; intros g r Hvalid.
  - exists g, r. unfold described. cbn [populate sum_list_with].
    split_and!; [done|lia|lia|apply grows_refl|done].
  - apply Forall_cons in Hvalid as [He Hes].
    destruct (populate_entry_valid st e g r He)
      as (g1 & r1 & Hentry & Hcount & Hgrows & Hframe).
    destruct (IH g1 r1) as (g' & r' & Hrest & Hh & Hk & Hgrows' & Hframe').
    { eapply Forall_impl; [exact Hes|].
      intros e'. by apply entry_valid_grows. }
    exists g', r'. cbn [populate]. rewrite Hentry.
    unfold described in *. cbn [sum_list_with].
    split_and!.
    + done.
    + rewrite Hh, (Hcount Herbivore herbivores eq_refl). lia.
    + rewrite Hk, (Hcount Carnivore carnivores eq_refl). lia.
    + by eapply grows_trans.
    + intros rc Hrc. cbn [fmap list_fmap] in Hrc.
      apply not_elem_of_cons in Hrc as [Hne Hrc].
      by rewrite Hframe', Hframe.
Qed.

Lemma add_animals_cell_fodder (animals : list (Animal Float))
    (c : Cell Float) :
  fodder (foldl add_animal c animals) = fodder c.
Proof.
  revert c. induction animals as [|a animals IH]; intros c; [done|].
  cbn [foldl]. rewrite IH. unfold add_animal. by destruct (species a).
Qed.

(** The animals made are the ones described, one per descriptor, in order. *)
Lemma make_animals_as_described (st : ParamStore Float)
    (descriptors : list (Descriptor Float))
    (ds : list (Species * Descriptor Float)) (r : RandomState) :
  mapM recognized descriptors = Some ds →
  Forall2 (as_described birth_weight st) descriptors
    (make_animals birth_weight st ds r).1.
Proof.
  rewrite mapM_Some. intros Hds. revert r.
  induction Hds as [|d [sp d'] descriptors ds Hd _ IH]; intros r.
  - constructor.
  - unfold recognized in Hd.
    destruct (species_of_name (d_species d)) as [sp0|] eqn:Hname; [|done].
    cbn [fmap option_fmap option_map] in Hd. injection Hd as -> ->.
    cbn [make_animals]. unfold make_animal.
    destruct (d_weight d') as [w|] eqn:Hw.
    + specialize (IH r).
      destruct (make_animals birth_weight st ds r) as [more r2].
      cbn [fst] in *. constructor; [|done].
      unfold as_described. cbn [species age weight]. by rewrite Hw.
    + destruct (birth_weight st sp r) as [w r1] eqn:Hb.
      specialize (IH r1).
      destruct (make_animals birth_weight st ds r1) as [more r2].
      cbn [fst] in *. constructor; [|done].
      unfold as_described. cbn [species age weight]. rewrite Hw.
      split_and!; [done|done|]. exists r. by rewrite Hb.
Qed.

(** A valid entry puts the animals it describes into the cell it addresses
    and leaves every other cell alone. *)
Lemma populate_entry_cells (st : ParamStore Float) (e : Entry Float)
    (g : list (list (Cell Float))) (r : RandomState) :
  entry_valid g e →
  ∃ g' r' animals,
    populate_entry birth_weight st e g r = (Returns tt, g', r')
    ∧ Forall2 (as_described birth_weight st) (pop e) animals
    ∧ (∀ c, cell_at g (loc e) = Some c →
         cell_at g' (loc e) = Some (foldl add_animal c animals))
    ∧ (∀ rc, rc ≠ loc e → cell_at g' rc = cell_at g rc).
Proof.
  intros [(c & Hc & Hland) Hnames]. unfold populate_entry. rewrite Hc.
  rewrite decide_False by done.
  destruct (mapM recognized (pop e)) as [ds|] eqn:Hds; cycle 1.
  { exfalso. apply eq_None_not_Some in Hds. apply Hds, mapM_is_Some.
    eapply Forall_impl; [exact Hnames|]. intros d [sp Hsp].
    unfold compose, recognized. rewrite Hsp. by eexists. }
  pose proof (make_animals_as_described st (pop e) ds r Hds) as Hdesc.
  destruct (make_animals birth_weight st ds r) as [animals r'].
  cbn [fst] in Hdesc.
  exists (update_cell (fun c => foldl add_animal c animals) (loc e) g),
    r', animals.
  split_and!; [done|done| |].
  - intros c0 [= <-].
    exact (cell_at_update_eq (fun c => foldl add_animal c animals) (loc e)
             g c Hc).
  - intros rc Hne.
    apply cell_at_update_ne; [by eapply cell_at_in_bounds|done].
Qed.

Lemma addressed_to_cons (rc : Z * Z) (e : Entry Float)
    (es : list (Entry Float)) :
  addressed_to rc (e :: es)
  = (if decide (loc e = rc) then pop e else []) ++ addressed_to rc es.
Proof.
  unfold addressed_to. rewrite filter_cons. by case_decide.
Qed.

(** After a valid population specification every cell holds what it held,
    followed by the animals described for it, in the order described. *)
Lemma populate_cells (st : ParamStore Float) (es : list (Entry Float))
    (g : list (list (Cell Float))) (r : RandomState) :
  Forall (entry_valid g) es →
  ∃ g' r',
    populate birth_weight es st g r = (Returns tt, g', r')
    ∧ ∀ rc c, cell_at g rc = Some c →
        ∃ c' added,
          cell_at g' rc = Some c'
          ∧ terrain c' = terrain c ∧ fodder c' = fodder c
          ∧ Forall2 (as_described birth_weight st) (addressed_to rc es) added
          ∧ herbivores c'
            = herbivores c ++ filter (fun a => species a = Herbivore) added
          ∧ carnivores c'
            = carnivores c ++ filter (fun a => species a = Carnivore) added.
Proof.
  revert g r. induction es as [|e es IH]; intros g r Hvalid.
  - exists g, r. split; [done|]. intros rc c Hc. exists c, [].
    rewrite !filter_nil, !app_nil_r. by split_and!.
  - apply Forall_cons in Hvalid as [He Hes].
    destruct (populate_entry_cells st e g r He)
      as (g1 & r1 & animals & Hentry & Hdesc & Hsame & Hother).
    destruct (populate_entry_valid st e g r He)
      as (g1' & r1' & Hentry' & _ & Hgrows & _).
    rewrite Hentry in Hentry'. injection Hentry' as <- <-.
    destruct (IH g1 r1) as (g' & r' & Hrest & Hcells).
    { eapply Forall_impl; [exact Hes|].
      intros e'. by apply entry_valid_grows. }
    exists g', r'. cbn [populate]. rewrite Hentry. split; [done|].
    intros rc c Hc. rewrite addressed_to_cons.
    destruct (decide (loc e = rc)) as [<-|Hne].
    + destruct (Hcells _ _ (Hsame c Hc))
        as (c' & added & Hc' & Ht & Hf & Hadded & Hh & Hk).
      destruct (add_animals_cell animals c) as (Ht1 & Hh1 & Hk1).
      exists c', (animals ++ added).
      rewrite !filter_app, !app_assoc, <- Hh1, <- Hk1.
      split_and!; [done|congruence| |by apply Forall2_app|done|done].
      by rewrite Hf, add_animals_cell_fodder.
    + rewrite <- (Hother rc) in Hc by done.
      destruct (Hcells _ _ Hc)
        as (c' & added & Hc' & Ht & Hf & Hadded & Hh & Hk).
      by exists c', added.
Qed.


(** C8. [add_population] with a valid population specification returns
    normally and only adds.  Afterwards every cell holds, on the same terrain
    and with the same fodder, the animals it held before, followed by exactly
    the animals the specification describes for that cell, in the order
    described, each in the collection of its species, of the described
    species and age (newborn when no age is given) and of the described
    weight (a sample of the species' birth weight when none is given); a cell
    the specification does not address is as it was.  Each species'
    island-wide total is what it was plus the number of animals of that
    species described. *)
Theorem add_population_only_adds (population : list (Entry Float))
    (self : BioSim (IM := IMod)) (p : Process (IM := IMod)) :
  Forall (entry_valid (island self)) population →
  ∃ self' p',
    add_population (IM := IMod) population (self, p)
      = (Returns tt, (self', p'))
    ∧ (total_island_population (island self')).1
      = (total_island_population (island self)).1
        + Z.of_nat (described Herbivore population)
    ∧ (total_island_population (island self')).2
      = (total_island_population (island self)).2
        + Z.of_nat (described Carnivore population)
    ∧ grows (island self) (island self')
    ∧ (∀ rc, rc ∉ loc <$> population →
         cell_at (island self') rc = cell_at (island self) rc)
    ∧ (∀ rc c, cell_at (island self) rc = Some c →
         ∃ c' added,
           cell_at (island self') rc = Some c'
           ∧ terrain c' = terrain c ∧ fodder c' = fodder c
           ∧ Forall2 (as_described birth_weight (param_store p))
               (addressed_to rc population) added
           ∧ herbivores c'
             = herbivores c
               ++ filter (fun a => species a = Herbivore) added
           ∧ carnivores c'
             = carnivores c
               ++ filter (fun a => species a = Carnivore) added).
Proof.
  intros Hvalid.
  destruct (populate_valid (param_store p) population (island self)
              (random_state p) Hvalid)
    as (g' & r' & Hpop & Hh & Hk & Hgrows & Hframe).
  destruct (populate_cells (param_store p) population (island self)
              (random_state p) Hvalid)
    as (g'' & r'' & Hpop' & Hcells).
  rewrite Hpop in Hpop'. injection Hpop' as <- <-.
  unfold add_population, self_island_populate, call_populate.
  cbn [populate_the_island IMod island_module]. rewrite Hpop.
  eexists _, _. split; [reflexivity|].
  cbn [island with_island total_island_population IMod island_module].
  unfold total_population. cbn [fst snd]. rewrite Hh, Hk.
  split_and!; [lia|lia|done|done|done].
Qed.

(** *** The parameter store *)

(** An override with an unknown key or a value out of range raises and
    leaves the store as it was. *)
Lemma store_set_species_parameters_rejects (sp : Species)
    (values : gmap string Float) (st : ParamStore Float) :
  override_ok (species_params st sp) (species_in_range sp) values = false →
  store_set_species_parameters species_in_range sp values st
  = (Raises (Engine ParameterError), st).
Proof. intros Hbad. unfold store_set_species_parameters. by rewrite Hbad. Qed.

(** A valid override is applied: the provided keys read back with their new
    values, every other key and the other species read as before. *)
Lemma store_set_species_parameters_applies (sp : Species)
    (values : gmap string Float) (st : ParamStore Float) :
  override_ok (species_params st sp) (species_in_range sp) values = true →
  ∃ st',
    store_set_species_parameters species_in_range sp values st
    = (Returns tt, st')
    ∧ (∀ k v, values !! k = Some v → species_params st' sp !! k = Some v)
    ∧ (∀ k, values !! k = None →
         species_params st' sp !! k = species_params st sp !! k)
    ∧ (∀ sp', sp' ≠ sp → species_params st' sp' = species_params st sp')
    ∧ landscape_params st' = landscape_params st.
Proof.
  intros Hok. unfold store_set_species_parameters. rewrite Hok.
  eexists. split; [reflexivity|]. cbn [species_params landscape_params].
  split_and!.
  - intros k v Hk. rewrite fn_lookup_insert.
    by apply lookup_union_Some_l.
  - intros k Hk. rewrite fn_lookup_insert. by apply lookup_union_r.
  - intros sp' Hne. by rewrite fn_lookup_insert_ne.
  - done.
Qed.

Lemma store_set_landscape_parameters_water (values : gmap string Float)
    (st : ParamStore Float) :
  store_set_landscape_parameters nonnegative Water values st
  = (Raises (Engine ParameterError), st).
Proof. reflexivity. Qed.

Lemma store_set_landscape_parameters_rejects (t : Terrain)
    (values : gmap string Float) (st : ParamStore Float) :
  override_ok (landscape_params st t) (fun _ => nonnegative) values = false →
  store_set_landscape_parameters nonnegative t values st
  = (Raises (Engine ParameterError), st).
Proof.
  intros Hbad. unfold store_set_landscape_parameters.
  case_decide; [done|]. by rewrite Hbad.
Qed.

Lemma store_set_landscape_parameters_applies (t : Terrain)
    (values : gmap string Float) (st : ParamStore Float) :
  t ≠ Water →
  override_ok (landscape_params st t) (fun _ => nonnegative) values = true →
  ∃ st',
    store_set_landscape_parameters nonnegative t values st
    = (Returns tt, st')
    ∧ (∀ k v, values !! k = Some v → landscape_params st' t !! k = Some v)
    ∧ (∀ k, values !! k = None →
         landscape_params st' t !! k = landscape_params st t !! k)
    ∧ (∀ t', t' ≠ t → landscape_params st' t' = landscape_params st t')
    ∧ species_params st' = species_params st.
Proof.
  intros Hland Hok. unfold store_set_landscape_parameters.
  rewrite decide_False by done. rewrite Hok.
  eexists. split; [reflexivity|]. cbn [species_params landscape_params].
  split_and!.
  - intros k v Hk. rewrite fn_lookup_insert.
    by apply lookup_union_Some_l.
  - intros k Hk. rewrite fn_lookup_insert. by apply lookup_union_r.
  - intros t' Hne. by rewrite fn_lookup_insert_ne.
  - done.
Qed.

End IslandFacts.

(** * The quiet island at work *)

Section QuietFacts.
Import IslandSpec Quiet.

Example quiet_construction :
  BioSim_init (IM := module) one_cell_map two_animals 7 None None None "png"
    (fresh_process 3)
  = (Returns the_sim, the_process).
Proof. reflexivity. Qed.

Example quiet_session_histories :
  histories (run_calls a_session (the_sim, the_process)).1
  = ([1; 1; 1; 1; 2; 2], [1; 1; 1; 1; 1; 1]).
Proof. reflexivity. Qed.

(** C4. [num_animals] after [add_population]: construct the one-cell island
    with one herbivore and one carnivore, then add one herbivore.  The island
    now reports two herbivores and one carnivore, three animals, and
    [num_animals] still returns 2, the total recorded at construction. *)
Theorem num_animals_stale_after_add_population :
  let σ := (add_population (IM := module) one_herbivore
              (the_sim, the_process)).2 in
  BioSim_init (IM := module) one_cell_map two_animals 7 None None None "png"
    (fresh_process 3)
  = (Returns the_sim, the_process)
  ∧ total_island_population (island σ.1) = (2, 1)
  ∧ (num_animals σ).1 = Returns 2
  ∧ num_animals_per_species σ.1 !! "Herbivores" = Some 2
  ∧ num_animals_per_species σ.1 !! "Carnivore" = Some 1.
Proof. cbv zeta. split_and!; reflexivity. Qed.

(** The setters at work on the quiet island: by name nothing is applied, not
    even a valid override; by class a valid override is applied, and one with
    an unknown key or a negative value raises and changes nothing. *)
Example set_animal_parameters_by_name :
  let after := set_animal_parameters (IM := module) (StrObj "Herbivore")
                 ({[ "F" := 15 ]} : gmap string Z) (the_sim, the_process) in
  after.1 = Raises (AttributeError "set_animal_parameters")
  ∧ species_params (param_store after.2.2) Herbivore !! "F" = Some 10.
Proof. cbv zeta. split; reflexivity. Qed.

Example set_animal_parameters_by_class :
  let after := set_animal_parameters (IM := module) (ClassObj Herbivore)
                 ({[ "F" := 15 ]} : gmap string Z) (the_sim, the_process) in
  after.1 = Returns tt
  ∧ species_params (param_store after.2.2) Herbivore !! "F" = Some 15
  ∧ species_params (param_store after.2.2) Carnivore !! "F" = Some 50.
Proof. cbv zeta. split_and!; reflexivity. Qed.

Example set_animal_parameters_unknown_key :
  let after := set_animal_parameters (IM := module) (ClassObj Herbivore)
                 ({[ "F" := 15; "speed" := 3 ]} : gmap string Z)
                 (the_sim, the_process) in
  after.1 = Raises (Engine ParameterError)
  ∧ species_params (param_store after.2.2) Herbivore !! "F" = Some 10
  ∧ species_params (param_store after.2.2) Herbivore !! "speed" = None.
Proof. cbv zeta. split_and!; reflexivity. Qed.

Example set_landscape_parameters_negative :
  let after := set_landscape_parameters (IM := module) (ClassObj Lowland)
                 ({[ "f_max" := -1 ]} : gmap string Z)
                 (the_sim, the_process) in
  after.1 = Raises (Engine ParameterError)
  ∧ landscape_params (param_store after.2.2) Lowland !! "f_max" = Some 800.
Proof. cbv zeta. split; reflexivity. Qed.

(** *** The theorems at the quiet island *)

Lemma simulate_records_each_year_witness :
  0 ≤ 2
  ∧ ∃ self' p' hs cs,
      simulate (IM := module) 2 (Some 1) None (the_sim, the_process)
        = (Returns tt, (self', p'))
      ∧ call_log p'
        = call_log the_process ++ replicate (Z.to_nat 2) EvAnnualCycle
      ∧ island self'
        = (years_later (param_store the_process) (Z.to_nat 2)
             (island the_sim) (random_state the_process)).1
      ∧ herbivore_list self' = herbivore_list the_sim ++ hs
      ∧ carnivore_list self' = carnivore_list the_sim ++ cs
      ∧ Z.of_nat (length hs) = 2
      ∧ Z.of_nat (length cs) = 2
      ∧ ∀ k : nat, (k < Z.to_nat 2)%nat →
          let isl_k :=
            (years_later (param_store the_process) (S k) (island the_sim)
               (random_state the_process)).1 in
          hs !! k = Some (total_island_population isl_k).1
          ∧ cs !! k = Some (total_island_population isl_k).2.
Proof.
  split; [lia|].
  apply (simulate_records_each_year (IM := module) 2 (Some 1) None
           the_sim the_process).
  lia.
Defined.

Lemma construction_builds_then_populates_witness :
  BioSim_init (IM := module) one_cell_map two_animals 7 None None None "png"
    (fresh_process 3)
  = (Returns the_sim, the_process)
  ∧ call_log the_process
    = call_log (fresh_process 3)
      ++ [EvSeed 7; EvIslandInit one_cell_map; EvPopulate]
  ∧ (∃ isl0 r1 r2,
       Island_init (IslandModule := module) one_cell_map
         (param_store (fresh_process 3)) (seed_state 7)
         = (Returns isl0, r1)
       ∧ populate_the_island (IslandModule := module) two_animals
           (param_store (fresh_process 3)) isl0 r1
         = (Returns tt, island the_sim, r2)
       ∧ random_state the_process = r2)
  ∧ herbivore_list the_sim = [(total_island_population (island the_sim)).1]
  ∧ carnivore_list the_sim = [(total_island_population (island the_sim)).2].
Proof.
  split; [reflexivity|].
  apply (construction_builds_then_populates (IM := module) one_cell_map
           two_animals 7 None None None "png" (fresh_process 3) the_process
           the_sim).
  reflexivity.
Defined.

Lemma year_is_always_zero_witness :
  BioSim_init (IM := module) one_cell_map two_animals 7 None None None "png"
    (fresh_process 3)
  = (Returns the_sim, the_process)
  ∧ year (run_calls a_session (the_sim, the_process)).1 = 0.
Proof.
  split; [reflexivity|].
  apply (year_is_always_zero (IM := module) one_cell_map two_animals 7
           None None None "png" (fresh_process 3) the_process the_sim
           a_session).
  reflexivity.
Defined.

Lemma seeded_once_before_everything_witness :
  BioSim_init (IM := module) one_cell_map two_animals 7 None None None "png"
    (fresh_process 3)
  = (Returns the_sim, the_process)
  ∧ (∃ evs,
       call_log (run_calls a_session (the_sim, the_process)).2
       = call_log (fresh_process 3)
         ++ [EvSeed 7; EvIslandInit one_cell_map; EvPopulate] ++ evs
       ∧ unseeded evs)
  ∧ (∃ isl0 r1,
       Island_init (IslandModule := module) one_cell_map
         (param_store (fresh_process 3)) (seed_state 7)
         = (Returns isl0, r1)
       ∧ populate_the_island (IslandModule := module) two_animals
           (param_store (fresh_process 3)) isl0 r1
         = (Returns tt, island the_sim, random_state the_process))
  ∧ random_state (run_calls a_session (the_sim, the_process)).2
    = (island_run a_session (param_store the_process) (island the_sim)
         (random_state the_process)).2
  ∧ (∀ (n : Z) (v i : option Z) (σ : BioSim * Process),
       random_state (simulate (IM := module) n v i σ).2.2
       = (years_later (param_store σ.2) (Z.to_nat n) (island σ.1)
            (random_state σ.2)).2)
  ∧ (∀ (population : @Population module) (σ : BioSim * Process),
       random_state (add_population (IM := module) population σ).2.2
       = (populate_the_island population (param_store σ.2) (island σ.1)
            (random_state σ.2)).2).
Proof.
  split; [reflexivity|].
  apply (seeded_once_before_everything (IM := module) one_cell_map
           two_animals 7 None None None "png" (fresh_process 3) the_process
           the_sim a_session).
  reflexivity.
Defined.

Lemma add_population_only_adds_witness :
  Forall (entry_valid (island the_sim)) one_herbivore
  ∧ ∃ self' p',
      add_population (IM := module) one_herbivore (the_sim, the_process)
        = (Returns tt, (self', p'))
      ∧ (total_island_population (island self')).1
        = (total_island_population (island the_sim)).1
          + Z.of_nat (described Herbivore one_herbivore)
      ∧ (total_island_population (island self')).2
        = (total_island_population (island the_sim)).2
          + Z.of_nat (described Carnivore one_herbivore)
      ∧ grows (island the_sim) (island self')
      ∧ (∀ rc, rc ∉ loc <$> one_herbivore →
           cell_at (island self') rc = cell_at (island the_sim) rc)
      ∧ (∀ rc c, cell_at (island the_sim) rc = Some c →
           ∃ c' added,
             cell_at (island self') rc = Some c'
             ∧ terrain c' = terrain c ∧ fodder c' = fodder c
             ∧ Forall2
                 (as_described (fun _ _ r => (8, r + 1))
                    (param_store the_process))
                 (addressed_to rc one_herbivore) added
             ∧ herbivores c'
               = herbivores c
                 ++ filter (fun a => species a = Herbivore) added
             ∧ carnivores c'
               = carnivores c
                 ++ filter (fun a => species a = Carnivore) added).
Proof.
  assert (Forall (entry_valid (island the_sim)) one_herbivore) as Hvalid.
  { apply Forall_cons. split; [|by apply Forall_nil]. split.
    - eexists. split; [reflexivity|discriminate].
    - apply Forall_cons. split; [|by apply Forall_nil].
      by eexists. }
  split; [exact Hvalid|].
  exact (add_population_only_adds (fun seed => seed)
           (fun _ _ v => 0 <=? v) (fun v => 0 <=? v)
           (fun _ _ => 0) (fun _ _ r => (8, r + 1)) quiet_year
           one_herbivore the_sim the_process Hvalid).
Defined.

End QuietFacts.

(** * More on the wrapper: histories, failures, overrides *)

Section HistoryFacts.
Context `{IM : IslandModule}.

Lemma simulated_years_cons (c : Call) (cs : list Call) :
  simulated_years (c :: cs)
  = (simulated_years [c] + simulated_years cs)%nat.
Proof. destruct c; cbn [simulated_years]; lia. Qed.

(** One call makes both history lists longer by the years it simulates. *)
Lemma perform_history_lengths (c : Call) (σ : BioSim * Process) :
  length (herbivore_list (perform c σ).2.1)
  = (length (herbivore_list σ.1) + simulated_years [c])%nat
  ∧ length (carnivore_list (perform c σ).2.1)
    = (length (carnivore_list σ.1) + simulated_years [c])%nat.
Proof.
  destruct σ as [self p].
  destruct c as [n v i|population|[name|cls] params|[name|cls] params];
    cbn [perform simulated_years].
  - rewrite simulate_after_years. unfold after_years.
    cbn [fst snd herbivore_list carnivore_list].
    rewrite !length_app, !length_fmap, !yearly_totals_length. lia.
  - unfold add_population, self_island_populate, call_populate.
    destruct (populate_the_island _ _ _ _) as [[o isl'] r'].
    cbn [fst snd with_island herbivore_list carnivore_list]. lia.
  - cbn. lia.
  - unfold set_animal_parameters, lift_store.
    destruct (species_set_animal_parameters _ _ _). cbn. lia.
  - cbn. lia.
  - unfold set_landscape_parameters, lift_store.
    destruct (landscape_set_landscape_parameters _ _ _). cbn. lia.
Qed.

Lemma run_calls_history_lengths (cs : list Call) (σ : BioSim * Process) :
  length (herbivore_list (run_calls cs σ).1)
  = (length (herbivore_list σ.1) + simulated_years cs)%nat
  ∧ length (carnivore_list (run_calls cs σ).1)
    = (length (carnivore_list σ.1) + simulated_years cs)%nat.
Proof.
  revert σ. induction cs as [|c cs IH]; intros σ.
  - cbn [run_calls simulated_years]. lia.
  - rewrite simulated_years_cons. cbn [run_calls].
    destruct (IH (perform c σ).2) as [Hh Hc].
    destruct (perform_history_lengths c σ) as [Hh1 Hc1]. lia.
Qed.

(** One call keeps what both history lists hold, in front. *)
Lemma perform_history_prefix (c : Call) (σ : BioSim * Process) :
  herbivore_list σ.1 `prefix_of` herbivore_list (perform c σ).2.1
  ∧ carnivore_list σ.1 `prefix_of` carnivore_list (perform c σ).2.1.
Proof.
  destruct σ as [self p].
  destruct c as [n v i|population|[name|cls] params|[name|cls] params];
    cbn [perform].
  - rewrite simulate_after_years. unfold after_years.
    cbn [fst snd herbivore_list carnivore_list].
    split; by apply prefix_app_r.
  - unfold add_population, self_island_populate, call_populate.
    by destruct (populate_the_island _ _ _ _) as [[o isl'] r'].
  - done.
  - unfold set_animal_parameters, lift_store.
    by destruct (species_set_animal_parameters _ _ _).
  - done.
  - unfold set_landscape_parameters, lift_store.
    by destruct (landscape_set_landscape_parameters _ _ _).
Qed.

(** X3. After a successful construction and any sequence of calls, each
    history list holds one entry for the initial population and one for every
    simulated year: both have length 1 + the years simulated so far, so the
    index of an entry is its year.  [add_population] and the setters add no
    entry. *)
Theorem history_lengths_count_years
    (island_map : string) (ini_pop : Population) (seed : Z)
    (ymax_animals : option Z) (cmax_animals : option (gmap string Z))
    (img_base : option string) (img_fmt : string)
    (p0 p : Process) (self : BioSim) (cs : list Call) :
  BioSim_init island_map ini_pop seed ymax_animals cmax_animals img_base
    img_fmt p0 = (Returns self, p) →
  length (herbivore_list (run_calls cs (self, p)).1) = S (simulated_years cs)
  ∧ length (carnivore_list (run_calls cs (self, p)).1)
    = S (simulated_years cs).
Proof.
  intros Hinit.
  destruct (run_calls_history_lengths cs (self, p)) as [Hh Hc].
  apply BioSim_init_Returns in Hinit as (? & ? & isl & ? & _ & _ & -> & _).
  cbn [fst herbivore_list carnivore_list length] in Hh, Hc. lia.
Qed.

(** X4. The histories are append-only: whatever calls are made, in whatever
    order and whether they raise or not, the entries both lists held before
    are still there afterwards, unchanged and in front. *)
Theorem histories_append_only (cs : list Call) (σ : BioSim * Process) :
  herbivore_list σ.1 `prefix_of` herbivore_list (run_calls cs σ).1
  ∧ carnivore_list σ.1 `prefix_of` carnivore_list (run_calls cs σ).1.
Proof.
  revert σ. induction cs as [|c cs IH]; intros σ; [done|].
  cbn [run_calls].
  destruct (IH (perform c σ).2) as [Hh Hc].
  destruct (perform_history_prefix c σ) as [Hh1 Hc1].
  split; by etrans.
Qed.

(** X5. On a constructed simulation [num_animals] never raises: after any
    sequence of calls it returns the sum of the last entries of the two
    history lists and leaves the simulation and the process as they are. *)
Theorem num_animals_returns_last_entries
    (island_map : string) (ini_pop : Population) (seed : Z)
    (ymax_animals : option Z) (cmax_animals : option (gmap string Z))
    (img_base : option string) (img_fmt : string)
    (p0 p : Process) (self : BioSim) (cs : list Call) :
  BioSim_init island_map ini_pop seed ymax_animals cmax_animals img_base
    img_fmt p0 = (Returns self, p) →
  let σ := run_calls cs (self, p) in
  ∃ h c,
    last (herbivore_list σ.1) = Some h
    ∧ last (carnivore_list σ.1) = Some c
    ∧ num_animals σ = (Returns (h + c), σ).
Proof.
  intros Hinit σ.
  destruct (run_calls_history_lengths cs (self, p)) as [Hh Hc].
  fold σ in Hh, Hc.
  apply BioSim_init_Returns in Hinit as (? & ? & isl & ? & _ & _ & -> & _).
  cbn [fst herbivore_list carnivore_list length] in Hh, Hc.
  destruct (herbivore_list σ.1) as [|h0 hl] eqn:Hhl using rev_ind;
    [cbn in Hh; lia|].
  destruct (carnivore_list σ.1) as [|c0 cl] eqn:Hcl using rev_ind;
    [cbn in Hc; lia|].
  exists h0, c0. rewrite !last_snoc. split_and!; [done|done|].
  destruct σ as [s q]. by eapply num_animals_reads_last.
Qed.

(** X8. What the constructor stored of its arguments stays as it is: after
    any sequence of calls the map string, the initial population and the four
    plotting options are the ones given at construction.  In particular
    [add_population] does not extend [ini_pop]. *)
Theorem configuration_is_fixed
    (island_map0 : string) (ini_pop0 : Population) (seed : Z)
    (ymax : option Z) (cmax : option (gmap string Z))
    (base : option string) (fmt : string)
    (p0 p : Process) (self : BioSim) (cs : list Call) :
  BioSim_init island_map0 ini_pop0 seed ymax cmax base fmt p0
    = (Returns self, p) →
  let s := (run_calls cs (self, p)).1 in
  island_map s = island_map0 ∧ ini_pop s = ini_pop0
  ∧ ymax_animals s = ymax ∧ cmax_animals s = cmax
  ∧ img_base s = base ∧ img_fmt s = fmt.
Proof.
  intros Hinit.
  assert (∀ (cs : list Call) (σ : BioSim * Process),
            let s := (run_calls cs σ).1 in
            island_map s = island_map σ.1 ∧ ini_pop s = ini_pop σ.1
            ∧ ymax_animals s = ymax_animals σ.1
            ∧ cmax_animals s = cmax_animals σ.1
            ∧ img_base s = img_base σ.1 ∧ img_fmt s = img_fmt σ.1) as Hkeep.
  { clear. induction cs as [|c cs IH]; intros σ; [done|].
    cbn [run_calls]. cbv zeta in *.
    destruct (IH (perform c σ).2) as (-> & -> & -> & -> & -> & ->).
    clear IH. destruct σ as [self p].
    destruct c as [n v i|population|[name|cls] params|[name|cls] params];
      cbn [perform].
    - by rewrite simulate_after_years.
    - unfold add_population, self_island_populate, call_populate.
      by destruct (populate_the_island _ _ _ _) as [[o isl'] r'].
    - done.
    - unfold set_animal_parameters, lift_store.
      by destruct (species_set_animal_parameters _ _ _).
    - done.
    - unfold set_landscape_parameters, lift_store.
      by destruct (landscape_set_landscape_parameters _ _ _). }
  cbv zeta. destruct (Hkeep cs (self, p)) as (-> & -> & -> & -> & -> & ->).
  by apply BioSim_init_Returns in Hinit as (? & ? & isl & ? & _ & _ & -> & _).
Qed.

End HistoryFacts.

Section ConstructionFacts.
Context `{IM : IslandModule}.

(** X6. The constructor returns exactly when the island constructor returns
    an island for the map and [populate_the_island] returns on that island
    for the initial population, both run on the freshly seeded random source;
    it raises in every other case. *)
Theorem construction_returns_iff
    (island_map : string) (ini_pop : Population) (seed : Z)
    (ymax_animals : option Z) (cmax_animals : option (gmap string Z))
    (img_base : option string) (img_fmt : string) (p0 : Process) :
  returned (BioSim_init island_map ini_pop seed ymax_animals cmax_animals
              img_base img_fmt p0).1 = true
  ↔ ∃ isl0 r1,
      Island_init island_map (param_store p0) (seed_state seed)
        = (Returns isl0, r1)
      ∧ returned (populate_the_island ini_pop (param_store p0) isl0 r1).1.1
        = true.
Proof.
  unfold BioSim_init, bind, random_seed, modify, new_Island, call_populate,
    log.
  cbn [random_state param_store call_log].
  destruct (Island_init _ _ _) as [[isl0|e] r1] eqn:Hinit;
    cbn [random_state param_store call_log].
  - destruct (populate_the_island _ _ _ _) as [[[[]|e] isl] r2] eqn:Hpop;
      cbn [fst returned].
    + split; [|done]. intros _. exists isl0, r1. by rewrite Hpop.
    + split; [done|]. intros (isl0' & r1' & [= <- <-] & Hret).
      by rewrite Hpop in Hret.
  - cbn [fst returned]. split; [done|]. by intros (? & ? & ? & _).
Qed.

(** X7. A construction that raises has already reseeded the shared random
    source.  The exception is the one of the island constructor, and then
    [populate_the_island] was never called, or the one of
    [populate_the_island] on the island just built; either way the random
    source is left in the state the failing call reached from the new seed. *)
Theorem failed_construction_has_seeded
    (island_map : string) (ini_pop : Population) (seed : Z)
    (ymax_animals : option Z) (cmax_animals : option (gmap string Z))
    (img_base : option string) (img_fmt : string)
    (p0 p : Process) (e : Exn) :
  BioSim_init island_map ini_pop seed ymax_animals cmax_animals img_base
    img_fmt p0 = (Raises e, p) →
  param_store p = param_store p0
  ∧ ((Island_init island_map (param_store p0) (seed_state seed)
        = (Raises e, random_state p)
      ∧ call_log p = call_log p0 ++ [EvSeed seed; EvIslandInit island_map])
     ∨ (∃ isl0 r1 isl,
          Island_init island_map (param_store p0) (seed_state seed)
            = (Returns isl0, r1)
          ∧ populate_the_island ini_pop (param_store p0) isl0 r1
            = (Raises e, isl, random_state p)
          ∧ call_log p
            = call_log p0
              ++ [EvSeed seed; EvIslandInit island_map; EvPopulate])).
Proof.
  unfold BioSim_init, bind, random_seed, modify, new_Island, call_populate,
    log.
  cbn [random_state param_store call_log].
  destruct (Island_init _ _ _) as [[isl0|e0] r1] eqn:Hinit;
    cbn [random_state param_store call_log].
  - destruct (populate_the_island _ _ _ _) as [[[[]|e1] isl] r2] eqn:Hpop;
      [discriminate|].
    intros [= <- <-]. cbn [random_state param_store call_log].
    split; [done|]. right. exists isl0, r1, isl.
    by rewrite <- !app_assoc.
  - intros [= <- <-]. cbn [random_state param_store call_log].
    split; [done|]. left. by rewrite <- !app_assoc.
Qed.

(** X13. The constructor resets the shared random source: its outcome, the
    simulation it returns and the state it leaves the random source in depend
    on the arguments and the parameter store only, not on the state the
    random source was in before nor on what was called before; the parameter
    store is left as it was. *)
Theorem construction_resets_random_source
    (island_map : string) (ini_pop : Population) (seed : Z)
    (ymax_animals : option Z) (cmax_animals : option (gmap string Z))
    (img_base : option string) (img_fmt : string)
    (st : Store) (r1 r2 : Rng) (log1 log2 : list Event) :
  let a := BioSim_init island_map ini_pop seed ymax_animals cmax_animals
             img_base img_fmt
             {| random_state := r1; param_store := st; call_log := log1 |} in
  let b := BioSim_init island_map ini_pop seed ymax_animals cmax_animals
             img_base img_fmt
             {| random_state := r2; param_store := st; call_log := log2 |} in
  a.1 = b.1 ∧ random_state a.2 = random_state b.2
  ∧ param_store a.2 = st ∧ param_store b.2 = st.
Proof.
  unfold BioSim_init, bind, random_seed, modify, new_Island, call_populate,
    log.
  cbn [random_state param_store call_log].
  destruct (Island_init _ _ _) as [[isl0|e] r]; [|done].
  cbn [random_state param_store call_log].
  by destruct (populate_the_island _ _ _ _) as [[[[]|e] isl] r'].
Qed.

(** X12. A parameter override made through a class between two calls of
    [simulate] governs the years simulated after it and nothing recorded
    before it: the next [simulate(n)] advances the island, as it stood, [n]
    years under the store the setter left, and appends those years' totals
    behind the existing history.  This holds for both setters. *)
Theorem override_applies_to_later_years
    (species : SpeciesClass) (landscape : LandscapeClass)
    (params : ParamDict) (num_years : Z) (vis_years img_years : option Z)
    (self : BioSim) (p : Process) :
  (let st' := (species_set_animal_parameters species params
                 (param_store p)).2 in
   let σ' := (simulate num_years vis_years img_years
                (set_animal_parameters (ClassObj species) params
                   (self, p)).2).2 in
   let totals := yearly_totals st' (Z.to_nat num_years) (island self)
                   (random_state p) in
   param_store σ'.2 = st'
   ∧ island σ'.1
     = (years_later st' (Z.to_nat num_years) (island self)
          (random_state p)).1
   ∧ herbivore_list σ'.1 = herbivore_list self ++ totals.*1
   ∧ carnivore_list σ'.1 = carnivore_list self ++ totals.*2)
  ∧ (let st' := (landscape_set_landscape_parameters landscape params
                   (param_store p)).2 in
     let σ' := (simulate num_years vis_years img_years
                  (set_landscape_parameters (ClassObj landscape) params
                     (self, p)).2).2 in
     let totals := yearly_totals st' (Z.to_nat num_years) (island self)
                     (random_state p) in
     param_store σ'.2 = st'
     ∧ island σ'.1
       = (years_later st' (Z.to_nat num_years) (island self)
            (random_state p)).1
     ∧ herbivore_list σ'.1 = herbivore_list self ++ totals.*1
     ∧ carnivore_list σ'.1 = carnivore_list self ++ totals.*2).
Proof.
  split; cbv zeta; rewrite simulate_after_years; unfold after_years.
  - unfold set_animal_parameters, lift_store.
    by destruct (species_set_animal_parameters _ _ _).
  - unfold set_landscape_parameters, lift_store.
    by destruct (landscape_set_landscape_parameters _ _ _).
Qed.

(** X14. Animals added with [add_population] enter the histories with the
    next simulated year: a following [simulate(n)] advances the island as
    [populate_the_island] left it, also when that call raised part of the way,
    and appends the totals of those [n] years behind the history as it was
    before the addition. *)
Theorem added_animals_are_recorded_next_year
    (population : Population) (num_years : Z)
    (vis_years img_years : option Z) (self : BioSim) (p : Process) :
  let res := populate_the_island population (param_store p) (island self)
               (random_state p) in
  let σ' := (simulate num_years vis_years img_years
               (add_population population (self, p)).2).2 in
  let totals := yearly_totals (param_store p) (Z.to_nat num_years)
                  res.1.2 res.2 in
  island σ'.1
  = (years_later (param_store p) (Z.to_nat num_years) res.1.2 res.2).1
  ∧ herbivore_list σ'.1 = herbivore_list self ++ totals.*1
  ∧ carnivore_list σ'.1 = carnivore_list self ++ totals.*2.
Proof.
  cbv zeta. rewrite simulate_after_years. unfold after_years.
  unfold add_population, self_island_populate, call_populate.
  by destruct (populate_the_island _ _ _ _) as [[o isl'] r'].
Qed.

End ConstructionFacts.

(** * The further theorems at the quiet island *)

Section QuietMore.
Import IslandSpec Quiet.

Example quiet_construction_into_the_water :
  (BioSim_init (IM := module) one_cell_map into_the_water 7 None None None
     "png" (fresh_process 3)).1
  = Raises (Engine PopulationError).
Proof. reflexivity. Qed.

Lemma simulate_nonpositive_witness :
  -3 ≤ 0
  ∧ simulate (IM := module) (-3) (Some 1) None (the_sim, the_process)
    = (Returns tt, (the_sim, the_process)).
Proof.
  split; [lia|].
  apply (simulate_nonpositive (IM := module) (-3) (Some 1) None
           (the_sim, the_process)).
  lia.
Defined.

Lemma simulate_twice_witness :
  0 ≤ 2 ∧ 0 ≤ 3
  ∧ simulate (IM := module) 3 None None
      (simulate (IM := module) 2 (Some 1) None (the_sim, the_process)).2
    = simulate (IM := module) (2 + 3) (Some 5) (Some 5)
        (the_sim, the_process).
Proof.
  split; [lia|]. split; [lia|].
  apply (simulate_twice (IM := module) 2 3 (Some 1) None None None
           (Some 5) (Some 5) (the_sim, the_process)); lia.
Defined.

Lemma history_lengths_count_years_witness :
  BioSim_init (IM := module) one_cell_map two_animals 7 None None None "png"
    (fresh_process 3)
  = (Returns the_sim, the_process)
  ∧ length (herbivore_list (run_calls a_session (the_sim, the_process)).1)
    = S (simulated_years a_session)
  ∧ length (carnivore_list (run_calls a_session (the_sim, the_process)).1)
    = S (simulated_years a_session).
Proof.
  split; [reflexivity|].
  apply (history_lengths_count_years (IM := module) one_cell_map two_animals
           7 None None None "png" (fresh_process 3) the_process the_sim
           a_session).
  reflexivity.
Defined.

Lemma num_animals_returns_last_entries_witness :
  BioSim_init (IM := module) one_cell_map two_animals 7 None None None "png"
    (fresh_process 3)
  = (Returns the_sim, the_process)
  ∧ (let σ := run_calls a_session (the_sim, the_process) in
     ∃ h c,
       last (herbivore_list σ.1) = Some h
       ∧ last (carnivore_list σ.1) = Some c
       ∧ num_animals σ = (Returns (h + c), σ)).
Proof.
  split; [reflexivity|].
  apply (num_animals_returns_last_entries (IM := module) one_cell_map
           two_animals 7 None None None "png" (fresh_process 3) the_process
           the_sim a_session).
  reflexivity.
Defined.

Lemma configuration_is_fixed_witness :
  BioSim_init (IM := module) one_cell_map two_animals 7 None None None "png"
    (fresh_process 3)
  = (Returns the_sim, the_process)
  ∧ (let s := (run_calls a_session (the_sim, the_process)).1 in
     island_map s = one_cell_map
     ∧ ini_pop s = (two_animals : @Population module)
     ∧ ymax_animals s = None ∧ cmax_animals s = None
     ∧ img_base s = None ∧ img_fmt s = "png").
Proof.
  split; [reflexivity|].
  apply (configuration_is_fixed (IM := module) one_cell_map two_animals 7
           None None None "png" (fresh_process 3) the_process the_sim
           a_session).
  reflexivity.
Defined.

Lemma failed_construction_has_seeded_witness :
  BioSim_init (IM := module) open_map two_animals 7 None None None "png"
    (fresh_process 3)
  = (Raises (Engine MapFormatError), process_after_open_map)
  ∧ param_store process_after_open_map = param_store (fresh_process 3)
  ∧ ((Island_init (IslandModule := module) open_map
        (param_store (fresh_process 3)) (seed_state 7)
      = (Raises (Engine MapFormatError), random_state process_after_open_map)
      ∧ call_log process_after_open_map
        = call_log (fresh_process 3) ++ [EvSeed 7; EvIslandInit open_map])
     ∨ (∃ isl0 r1 isl,
          Island_init (IslandModule := module) open_map
            (param_store (fresh_process 3)) (seed_state 7)
          = (Returns isl0, r1)
          ∧ populate_the_island (IslandModule := module) two_animals
              (param_store (fresh_process 3)) isl0 r1
            = (Raises (Engine MapFormatError), isl,
               random_state process_after_open_map)
          ∧ call_log process_after_open_map
            = call_log (fresh_process 3)
              ++ [EvSeed 7; EvIslandInit open_map; EvPopulate])).
Proof.
  split; [reflexivity|].
  apply (failed_construction_has_seeded (IM := module) open_map two_animals
           7 None None None "png" (fresh_process 3) process_after_open_map
           (Engine MapFormatError)).
  reflexivity.
Defined.

Lemma num_animals_after_init_witness :
  BioSim_init (IM := module) one_cell_map two_animals 7 None None None "png"
    (fresh_process 3)
  = (Returns the_sim, the_process)
  ∧ num_animals (the_sim, the_process)
    = (Returns ((total_island_population (island the_sim)).1
                + (total_island_population (island the_sim)).2),
       (the_sim, the_process)).
Proof.
  split; [reflexivity|].
  apply (num_animals_after_init (IM := module) one_cell_map two_animals 7
           None None None "png" (fresh_process 3) the_process the_sim).
  reflexivity.
Defined.

Lemma num_animals_after_simulate_witness :
  0 < 2
  ∧ (let σ' := (simulate (IM := module) 2 None None
                  (add_population (IM := module) one_herbivore
                     (the_sim, the_process)).2).2 in
     num_animals σ'
     = (Returns ((total_island_population (island σ'.1)).1
                 + (total_island_population (island σ'.1)).2), σ')).
Proof.
  split; [lia|].
  apply (num_animals_after_simulate (IM := module) 2 None None
           (add_population (IM := module) one_herbivore
              (the_sim, the_process)).2).
  lia.
Defined.

End QuietMore.
